(** * Handwritten-text-recognition training glue: data pipeline and masked loss

    A shallow embedding of
    - [src/data_loader/data_loader.py]: [get_data] (transform selection,
      dataset-family selection, train/validation index partition) and the two
      geometric transforms [FixedHeightResize] and [FixedWidthPad];
    - [src/models/loss/sequenceCrossEntropyLoss.py]:
      [SequenceCrossEntropyLoss.__init__] and [forward].

    Python exceptions are values of [exn] carried by the [result] monad.
    Python [float]s are IEEE binary64 numbers, taken from the Standard
    Library's executable specification [SpecFloat].  Tensor entries of the
    loss are modelled as real numbers. *)

From Stdlib Require Import ZArith List Lia Reals Lra String SpecFloat QArith_base.
From stdpp Require Import base list gmap pretty.
Import ListNotations.

#[local] Open Scope Z_scope.

(** ** Python exceptions and the result monad *)

Inductive exn : Set :=
| ValueError
| AssertionError
| ZeroDivisionError
| OverflowError
| IndexError
| RuntimeError.

Inductive result (A : Type) : Type :=
| Ok (a : A)
| Raise (e : exn).

Arguments Ok {A} a.
Arguments Raise {A} e.

#[global] Instance result_ret : MRet result := fun A a => Ok a.
#[global] Instance result_bind : MBind result := fun A B f m =>
  match m with
  | Ok a => f a
  | Raise e => Raise e
  end.

(** [assert c]: raises [AssertionError] when [c] is false. *)
Definition py_assert (c : bool) : result unit :=
  if c then Ok tt else Raise AssertionError.

(** ** Python floats: IEEE binary64 *)

Module Float64.

Definition prec : Z := 53.
Definition emax : Z := 1024.

Definition float : Set := spec_float.

(** The double nearest to the integer [z] (ties to even). *)
Definition round_int (z : Z) : float := binary_normalize prec emax z 0 false.

(** The IEEE quotient. *)
Definition div (x y : float) : float := SFdiv prec emax x y.

(** [float(z)] for a Python int: an int too large for a double raises
    [OverflowError]. *)
Definition of_int (z : Z) : result float :=
  match round_int z with
  | S754_infinity _ => Raise OverflowError
  | f => Ok f
  end.

Definition is_zero (f : float) : bool :=
  match f with
  | S754_zero _ => true
  | _ => false
  end.

(** [x / y] on floats: a zero divisor raises [ZeroDivisionError];
    otherwise the IEEE quotient (which may be an infinity or a NaN). *)
Definition truediv (x y : float) : result float :=
  if is_zero y then Raise ZeroDivisionError else Ok (div x y).

(** The integer ceiling of the finite value [(-1)^s * m * 2^e]. *)
Definition ceil_finite (s : bool) (m : positive) (e : Z) : Z :=
  let sm := cond_Zopp s (Zpos m) in
  if 0 <=? e then sm * 2 ^ e else - ((- sm) / 2 ^ (- e)).

(** [math.ceil(x)]: an infinity raises [OverflowError], a NaN raises
    [ValueError]. *)
Definition ceil (x : float) : result Z :=
  match x with
  | S754_zero _ => Ok 0
  | S754_infinity _ => Raise OverflowError
  | S754_nan => Raise ValueError
  | S754_finite s m e => Ok (ceil_finite s m e)
  end.

(** A positive normal number: full 53-bit mantissa, exponent in
    [lo .. hi]. *)
Definition normal (lo hi : Z) (f : float) : Prop :=
  ∃ m e, f = S754_finite false m e ∧
         2 ^ 52 <= Z.pos m < 2 ^ 53 ∧ lo <= e <= hi.

End Float64.

(** ** PIL images and the two torchvision primitives used by the transforms

    Only the dimensions of an image matter to the transforms: [img.size] is
    the pair [(width, height)]. *)

Record Image : Set := mkImage { im_width : Z; im_height : Z }.

Definition size (img : Image) : Z * Z := (im_width img, im_height img).

(** PIL hands the dimensions of an image to C as [int]s. *)
Definition C_int (z : Z) : bool := (- 2 ^ 31 <=? z) && (z <? 2 ^ 31).

(** [torchvision.transforms.functional.resize(img, (h, w))] on a PIL image:
    the result has exactly the requested size.  A requested dimension that
    does not fit a C [int] raises [OverflowError] when PIL parses the size;
    PIL then rejects a size below 1 with [ValueError].  The memory for the
    result is taken to be available. *)
Definition F_resize (img : Image) (hw : Z * Z) : result Image :=
  let '(h, w) := hw in
  if negb (C_int h && C_int w) then Raise OverflowError
  else if (h <? 1) || (w <? 1) then Raise ValueError
  else Ok (mkImage w h).

(** [torchvision.transforms.functional.pad(img, (left, top, right, bottom),
    fill, 'constant')] on a PIL image is [ImageOps.expand]: a new image of
    width [left + w + right] and height [top + h + bottom] onto which the
    input is pasted at [(left, top)]; a negative border therefore crops.
    [Image.new] rejects a negative width or height with [ValueError], and a
    width or height that does not fit a C [int] raises [OverflowError].  The
    memory for the result is taken to be available. *)
Definition F_pad (img : Image) (padding : Z * Z * Z * Z) : result Image :=
  let '(pleft, ptop, pright, pbottom) := padding in
  let '(w, h) := size img in
  let w' := pleft + w + pright in
  let h' := ptop + h + pbottom in
  if (w' <? 0) || (h' <? 0) then Raise ValueError
  else if negb (C_int w' && C_int h') then Raise OverflowError
  else Ok (mkImage w' h').

(** ** [class FixedHeightResize]: [__call__] with [self.size = self_size] *)

Definition FixedHeightResize_new_w (self_size : Z) (img : Image) : result Z :=
  let '(w, h) := size img in
  fh ← Float64.of_int h;
  fw ← Float64.of_int w;
  aspect_ratio ← Float64.truediv fh fw;
  fs ← Float64.of_int self_size;
  q ← Float64.truediv fs aspect_ratio;
  Float64.ceil q.

Definition FixedHeightResize_call (self_size : Z) (img : Image) : result Image :=
  new_w ← FixedHeightResize_new_w self_size img;
  F_resize img (self_size, new_w).

(** The width that exact arithmetic would give: the ceiling of
    [size / (h / w)], that is of [size * w / h]. *)
Definition exact_new_w (self_size : Z) (img : Image) : Z :=
  let '(w, h) := size img in
  - ((- (self_size * w)) / h).

(** ** [class FixedWidthPad]: [__call__] with [self.size = self_size]

    Python's [//] on integers is floor division, as is [Z.div] for a
    positive divisor. *)

Definition FixedWidthPad_pads (self_size : Z) (img : Image) : Z * Z :=
  let '(w, h) := size img in
  let pad := self_size - w in
  let pad_left := pad / 2 in
  let pad_right := pad - pad_left in
  (pad_left, pad_right).

Definition FixedWidthPad_call (self_size : Z) (img : Image) : result Image :=
  let '(pad_left, pad_right) := FixedWidthPad_pads self_size img in
  F_pad img (pad_left, 0, pad_right, 0).

(** ** Python slices

    [slice_index len n] is the position that the bound [n] of a slice with
    step 1 denotes in a sequence of [len] elements: a negative bound counts
    from the end, and the result is clamped to [0 .. len]. *)

Definition slice_index (len : nat) (n : Z) : nat :=
  if n <? 0 then Z.to_nat (Z.max 0 (Z.of_nat len + n))
  else Nat.min (Z.to_nat n) len.

(** [l[:n]] *)
Definition slice_to {A} (n : Z) (l : list A) : list A :=
  take (slice_index (length l) n) l.

(** [l[n:]] *)
Definition slice_from {A} (n : Z) (l : list A) : list A :=
  drop (slice_index (length l) n) l.

(** [np.arange(lo, hi)] *)
Definition arange (lo hi : Z) : list Z := seqZ lo (hi - lo).

(** ** The configuration and the objects [get_data] assembles *)

Record Args : Set := mkArgs {
  grayscale : bool;
  resize : Z;
  height : Z;
  width : Z;
  model_name : string;
  train : bool;
  num_samples : Z
}.

(** The stages of a [transforms.Compose]; a pipeline is the list of its
    stages, in order. *)
Inductive transform : Set :=
| Grayscale (num_output_channels : Z)
| RandomGrayscale (p : Q)
| GaussianBlur (kernel_size : Z)
| DefocusBlur (seed : Z) (prob : Q)
| ColorJitter (brightness : Q)
| JpegCompression (seed : Z) (prob : Q)
| RandomRotation (degrees : Z)
| Resize (h w : Z)
| FixedHeightResize (size : Z)
| FixedWidthPad (size : Z)
| ToTensor
| Normalize (mean std : list Q).

Inductive dataset_class : Set := HandWritttenDataset | HandWrittenDatasetV2.
Inductive collate : Set := collate_fn_ctc | collate_fn.
Inductive data_dir : Set := TRAIN_DIR | PUBLIC_TEST_DIR.

Record Dataset : Set := mkDataset {
  ds_class : dataset_class;
  ds_root : data_dir;
  ds_label_file : bool;
  ds_name : string;
  ds_transform : list transform
}.

(** What a loader iterates over: a dataset, or [Subset(dataset, indices)]. *)
Inductive data_set : Set :=
| Whole (d : Dataset)
| Subset (d : Dataset) (indices : list Z).

Record DataLoader : Set := mkDataLoader {
  dl_set : data_set;
  dl_batch_size : Z;
  dl_shuffle : bool;
  dl_drop_last : bool;
  dl_collate_fn : option collate;
  dl_pin_memory : bool;
  dl_num_workers : Z
}.

Record Loaders : Set := mkLoaders {
  train_loader : DataLoader;
  val_loader : option DataLoader;
  test_loader : DataLoader;
  train_dataset : Dataset;
  val_dataset : Dataset;
  test_dataset : Dataset
}.

Definition tensor_normalize : list transform :=
  [ ToTensor;
    Normalize [Qmake 5818 10000; Qmake 5700 10000; Qmake 5632 10000]
              [Qmake 1417 10000; Qmake 1431 10000; Qmake 1367 10000] ].

Definition augmentations (seed : Z) (args : Args) : list transform :=
  let grayscale_stage :=
    if grayscale args then Grayscale 3 else RandomGrayscale (Qmake 2 10) in
  [ GaussianBlur 3;
    DefocusBlur seed (Qmake 1 10);
    ColorJitter (Qmake 1 10);
    JpegCompression seed (Qmake 1 10);
    RandomRotation 15;
    grayscale_stage ].

(** Lines 67-103: the train and test pipelines. *)
Definition get_data_transforms (seed : Z) (args : Args)
  : list transform * list transform :=
  if resize args =? 1 then
    let train_transform :=
      augmentations seed args
        ++ [Resize (height args) (width args)] ++ tensor_normalize in
    let test_transform :=
      if grayscale args then
        [Grayscale 3; Resize (height args) (width args)] ++ tensor_normalize
      else
        [Resize (height args) (width args)] ++ tensor_normalize in
    (train_transform, test_transform)
  else
    let train_transform :=
      augmentations seed args
        ++ [FixedHeightResize (height args); FixedWidthPad (width args)]
        ++ tensor_normalize in
    let test_transform :=
      if grayscale args then
        [Grayscale 3; FixedHeightResize (height args); FixedWidthPad (width args)]
          ++ tensor_normalize
      else
        [FixedHeightResize (height args); FixedWidthPad (width args)]
          ++ tensor_normalize in
    (train_transform, test_transform).

(** Lines 105-110: the dataset class and its collate function. *)
Definition get_data_dataset (args : Args) : dataset_class * collate :=
  if bool_decide (model_name args ∈ ["crnn"; "cnnctc"]%string) then
    (HandWritttenDataset, collate_fn_ctc)
  else
    (HandWrittenDatasetV2, collate_fn).

(** ** NumPy's global random generator

    The generator state is abstract.  [seed_state] is the state installed by
    [np.random.seed]; [np_random_shuffle] is [np.random.shuffle] on a
    one-dimensional array, returning the shuffled array and the next
    state. *)

Section GetData.

Context {rng : Type}.
Variable seed_state : Z → rng.
Variable np_random_shuffle : list Z → rng → list Z * rng.

(** [np.random.seed(seed)]: the seed must fit in 32 unsigned bits. *)
Definition np_random_seed (seed : Z) : result rng :=
  if (0 <=? seed) && (seed <? 2 ^ 32) then Ok (seed_state seed)
  else Raise ValueError.

(** [np.random.choice(a, size, replace=False)]: the elements of [a] at the
    first [size] positions of a fresh permutation of [range(len(a))];
    asking for more elements than [a] has raises [ValueError]. *)
Definition np_random_choice (a : list Z) (size : Z) (g : rng)
  : result (list Z) :=
  let pop_size := Z.of_nat (length a) in
  if pop_size <? size then Raise ValueError
  else
    let '(idx, _) := np_random_shuffle (arange 0 pop_size) g in
    Ok ((λ i, a !!! Z.to_nat i) <$> slice_to size idx).

(** Lines 125-151: the train and validation subsets.
    [len_train_dataset] is [len(train_dataset)], the number of labelled
    samples found on disk. *)
Definition get_data_split (len_train_dataset : Z) (args : Args)
    (train_dataset val_dataset : Dataset) (g : rng)
  : result (data_set * option data_set) :=
  if train args then
    let form_inds := arange 0 51000 in
    let wild_inds := arange 51000 99000 in
    let gan_inds := arange 99000 103000 in
    let '(form_inds, g) := np_random_shuffle form_inds g in
    let '(wild_inds, g) := np_random_shuffle wild_inds g in
    let train_inds :=
      slice_from 5100 form_inds ++ slice_from 4800 wild_inds ++ gan_inds in
    let val_inds := slice_to 5100 form_inds ++ slice_to 4800 wild_inds in
    train_inds ←
      (if 0 <? num_samples args
       then np_random_choice train_inds (num_samples args) g
       else Ok train_inds);
    Ok (Subset train_dataset train_inds, Some (Subset val_dataset val_inds))
  else
    let train_set := Whole train_dataset in
    train_set ←
      (if 0 <? num_samples args
       then
         inds ← np_random_choice (arange 0 len_train_dataset)
                                 (num_samples args) g;
         Ok (Subset train_dataset inds)
       else Ok train_set);
    Ok (train_set, None).

(** [len(train_set)] for a data set over the training dataset. *)
Definition data_set_len (len_train_dataset : Z) (s : data_set) : Z :=
  match s with
  | Whole _ => len_train_dataset
  | Subset _ indices => Z.of_nat (length indices)
  end.

(** [RandomSampler(data_source)], which a [DataLoader] with [shuffle=True]
    builds first: a data source without samples raises [ValueError]. *)
Definition RandomSampler_init (num_samples : Z) : result unit :=
  if num_samples <=? 0 then Raise ValueError else Ok ().

(** [DataLoader(dataset, batch_size=..., ...)]: its [BatchSampler] raises
    [ValueError] for a batch size that is not positive. *)
Definition DataLoader_init (dataset : data_set) (batch_size : Z)
    (shuffle drop_last : bool) (collate_fn : option collate)
    (pin_memory : bool) (num_workers : Z) : result DataLoader :=
  if batch_size <=? 0 then Raise ValueError
  else Ok (mkDataLoader dataset batch_size shuffle drop_last collate_fn
                        pin_memory num_workers).

(** [get_data(batch_size, seed, args)].  [pl.seed_everything] seeds the
    generators of the other libraries, from which [get_data] draws nothing;
    [np.random.seed] installs the state the shuffles start from.  Building
    a [Dataset] is the construction of the record; the loader of the
    training set shuffles, so that its construction starts with a
    [RandomSampler] over the training set. *)
Definition get_data (len_train_dataset : Z) (batch_size seed : Z)
    (args : Args) : result Loaders :=
  g ← np_random_seed seed;
  let '(train_transform, test_transform) := get_data_transforms seed args in
  let '(dataset, collate) := get_data_dataset args in
  let train_dataset :=
    mkDataset dataset TRAIN_DIR true "train" train_transform in
  let val_dataset :=
    mkDataset dataset TRAIN_DIR true "train" test_transform in
  let test_dataset :=
    mkDataset dataset PUBLIC_TEST_DIR false "public_test" test_transform in
  '(train_set, val_set) ←
    get_data_split len_train_dataset args train_dataset val_dataset g;
  _ ← RandomSampler_init (data_set_len len_train_dataset train_set);
  train_loader ←
    DataLoader_init train_set batch_size true true (Some collate) true 2;
  val_loader ←
    (if train args then
       match val_set with
       | Some s =>
           l ← DataLoader_init s batch_size false false (Some collate) true 2;
           Ok (Some l)
       | None => Ok None
       end
     else Ok None);
  test_loader ←
    DataLoader_init (Whole test_dataset) batch_size false false None true 2;
  Ok (mkLoaders train_loader val_loader test_loader
                train_dataset val_dataset test_dataset).

(** The two shuffled ranges of a run seeded with [seed]: the form range is
    shuffled first, the wild range with the generator state that shuffle
    leaves behind. *)
Definition shuffled_form (seed : Z) : list Z :=
  (np_random_shuffle (arange 0 51000) (seed_state seed)).1.

Definition shuffled_wild (seed : Z) : list Z :=
  (np_random_shuffle (arange 51000 99000)
     (np_random_shuffle (arange 0 51000) (seed_state seed)).2).1.

(** The first 5100 shuffled form indices followed by the first 4800 shuffled
    wild indices, and the remaining ones followed by the synthetic range. *)
Definition val_inds_of (seed : Z) : list Z :=
  take (Z.to_nat 5100) (shuffled_form seed)
    ++ take (Z.to_nat 4800) (shuffled_wild seed).

Definition train_inds_of (seed : Z) : list Z :=
  drop (Z.to_nat 5100) (shuffled_form seed)
    ++ drop (Z.to_nat 4800) (shuffled_wild seed)
    ++ arange 99000 103000.

End GetData.

(** A deterministic stand-in for the generator, used to run [get_data] on
    concrete configurations: the state counts the calls and every shuffle
    reverses its argument. *)
Definition counting_state (seed : Z) : Z := seed.
Definition reversing_shuffle (l : list Z) (g : Z) : list Z * Z :=
  (reverse l, g + 1).

(** Two configurations: training mode without a sample cap, and a
    configuration whose resize mode and model name are neither of the
    values [get_data] tests for. *)
Definition args_train : Args :=
  mkArgs false 0 32 128 "crnn" true 0.

Definition args_unknown_options : Args :=
  mkArgs false 7 32 128 "transformer" false 0.

(** The index lists behind the loaders. *)
Definition indices_of (s : data_set) : option (list Z) :=
  match s with
  | Whole _ => None
  | Subset _ inds => Some inds
  end.

Definition train_indices (r : Loaders) : option (list Z) :=
  indices_of (dl_set (train_loader r)).

Definition val_indices (r : Loaders) : option (list Z) :=
  val_loader r ≫= λ l, indices_of (dl_set l).

(** ** Tensors of the masked sequence loss

    A tensor is the nested list of its entries; floating-point entries are
    real numbers: rounding is left out, and so are the infinities and NaN
    of float32.  [size1 t] is [t.size(1)], read off the first row. *)

Definition size1 {A} (t : list (list A)) : nat :=
  match t with
  | [] => O
  | row :: _ => length row
  end.

#[global] Instance R_inhabited : Inhabited R := populate 0%R.

(** [torch.sum] *)
Definition Rsum (l : list R) : R := foldr Rplus 0%R l.

(** [F.log_softmax] of one row of logits. *)
Definition log_softmax (x : list R) : list R :=
  let lse := ln (Rsum (exp <$> x)) in
  (λ xi, (xi - lse)%R) <$> x.

(** The largest finite float32, [(2 - 2^-23) * 2^127]. *)
Definition float32_max : R := 340282346638528859811704183484516925440%R.

(** In float32 the log-probabilities of a row of logits are finite when the
    logits are finite and no difference of two of them overflows; a
    log-probability is minus infinity otherwise, and its product with a
    zero of the mask is NaN.  The real-valued [log_softmax] is the float32
    one, up to rounding, on such rows only. *)
Definition finite_logits (row : list R) : Prop :=
  Forall (λ x, (- float32_max <= x <= float32_max)%R ∧
               Forall (λ y, (x - y <= float32_max)%R) row) row.

(** [max(length)]: the built-in raises [ValueError] on an empty sequence. *)
Definition py_max (l : list Z) : result Z :=
  match l with
  | [] => Raise ValueError
  | x :: l' => Ok (foldl Z.max x l')
  end.

(** [row[:n].fill_(1)] *)
Definition fill_prefix (n : Z) (row : list R) : list R :=
  let k := slice_index (length row) n in
  replicate k 1%R ++ drop k row.

(** A mask row of width [D] for the length [n]: ones up to the position the
    slice bound [n] denotes, zeros after it. *)
Definition mask_row (D : nat) (n : Z) : list R :=
  replicate (slice_index D n) 1%R ++ replicate (D - slice_index D n) 0%R.

(** The loop [for i in range(batch_size): mask[i,:length[i]].fill_(1)];
    [length[i]] raises [IndexError] past the end of [length]. *)
Fixpoint mask_loop (rows : list nat) (len : list Z) (mask : list (list R))
  : result (list (list R)) :=
  match rows with
  | [] => Ok mask
  | i :: rows' =>
      match len !! i with
      | None => Raise IndexError
      | Some n => mask_loop rows' len (alter (fill_prefix n) i mask)
      end
  end.

Definition build_mask (batch_size def_max_length : nat) (len : list Z)
  : result (list (list R)) :=
  mask_loop (seq 0 batch_size) len
            (replicate batch_size (replicate def_max_length 0%R)).

(** [input.gather(1, index)] for [input] of shape (N, C) and [index] of
    shape (N', 1): row [i] of the result is [input[i][index[i]]].  More index
    rows than input rows, or an index outside [0, C), is a [RuntimeError]. *)
Fixpoint gather (input : list (list R)) (index : list Z) : result (list R) :=
  match index with
  | [] => Ok []
  | t :: index' =>
      match input with
      | [] => Raise RuntimeError
      | row :: input' =>
          if t <? 0 then Raise RuntimeError
          else
            match row !! Z.to_nat t with
            | None => Raise RuntimeError
            | Some x => rest ← gather input' index'; Ok (x :: rest)
            end
      end
  end.

(** ** [class SequenceCrossEntropyLoss] *)

Record SequenceCrossEntropyLoss : Type := mkSequenceCrossEntropyLoss {
  weight : option (list R);
  size_average : bool;
  ignore_index : Z;
  sequence_normalize : bool;
  sample_normalize : bool
}.

(** [__init__] *)
Definition SequenceCrossEntropyLoss_init (weight : option (list R))
    (size_average : bool) (ignore_index : Z)
    (sequence_normalize sample_normalize : bool)
  : result SequenceCrossEntropyLoss :=
  _ ← py_assert (bool_decide ((sequence_normalize && sample_normalize) = false));
  Ok (mkSequenceCrossEntropyLoss weight size_average ignore_index
                                 sequence_normalize sample_normalize).

(** The module as the training script builds it: every argument at its
    default. *)
Definition default_loss : SequenceCrossEntropyLoss :=
  mkSequenceCrossEntropyLoss None true (-100) false true.

(** A class index [t] addresses an entry of the row of logits [row]. *)
Definition in_range (row : list R) (t : Z) : Prop :=
  0 <= t < Z.of_nat (length row).

(** [forward], lines 39-56: the flattened elementwise [output] and the
    flattened [mask].  [target] is an integer tensor, so [_assert_no_grad]
    always passes. *)
Definition forward_output (input : list (list (list R)))
    (target : list (list Z)) (length_ : list Z)
  : result (list R * list R) :=
  let batch_size := length target in
  let def_max_length := size1 target in
  mask ← build_mask batch_size def_max_length length_;
  max_length ← py_max length_;
  _ ← py_assert (max_length =? Z.of_nat (size1 input));
  let target := slice_to max_length <$> target in
  let mask := slice_to max_length <$> mask in
  let input := concat input in
  let input := log_softmax <$> input in
  let target := concat target in
  let mask := concat mask in
  gathered ← gather input target;
  let output := zip_with (λ x m, (- x * m)%R) gathered mask in
  Ok (output, mask).

(** [forward], lines 61-67: the sum and the two normalisations. *)
Definition forward_reduce (self : SequenceCrossEntropyLoss)
    (output mask : list R) (batch_size : nat) : R :=
  let output := Rsum output in
  let output :=
    if sequence_normalize self then (output / Rsum mask)%R else output in
  let output :=
    if sample_normalize self then (output / INR batch_size)%R else output in
  output.

Definition forward (self : SequenceCrossEntropyLoss)
    (input : list (list (list R))) (target : list (list Z))
    (length_ : list Z) : result R :=
  '(output, mask) ← forward_output input target length_;
  Ok (forward_reduce self output mask (length target)).

(** *** Cross-entropy, as a reference for the loss

    The cross-entropy of a row of logits against a class index is the
    negated logarithm of the softmax probability of that class; the
    cross-entropy of a sequence is the sum over its time steps; the mean
    over the batch divides the sum over the samples by their number. *)

Definition softmax (x : list R) : list R :=
  let s := Rsum (exp <$> x) in
  (λ xi, (exp xi / s)%R) <$> x.

Definition cross_entropy (logits : list R) (t : Z) : R :=
  (- ln (softmax logits !!! Z.to_nat t))%R.

Definition sequence_cross_entropy (logits : list (list R)) (targets : list Z)
  : R :=
  Rsum (zip_with cross_entropy logits targets).

Definition mean_cross_entropy (input : list (list (list R)))
    (target : list (list Z)) : R :=
  (Rsum (zip_with sequence_cross_entropy input target)
   / INR (length input))%R.

(** The standard mean cross-entropy of the logits against the targets
    ([reduction='mean']): the average over all positions of all samples. *)
Definition standard_mean_cross_entropy (input : list (list (list R)))
    (target : list (list Z)) : R :=
  (Rsum (zip_with cross_entropy (concat input) (concat target))
   / INR (length (concat target)))%R.

(** ** [transforms.Compose] on the size of an image

    The stages of the pipelines act on an RGB image, whose three bands the
    three means and deviations of [Normalize] fit.  [Resize],
    [FixedHeightResize] and [FixedWidthPad] change its size; the
    photometric stages, the rotation (which keeps the canvas), [ToTensor]
    and [Normalize] keep it.  [GaussianBlur] keeps it too, but pads the
    image by [kernel_size // 2] pixels in reflect mode first, which torch
    rejects with [RuntimeError] unless both dimensions are larger than
    that.  [DefocusBlur] and [JpegCompression] come from the [augment]
    module, whose code is not part of this development: [augment_call]
    stands for them. *)

Section Compose.

Variable augment_call : transform → Image → result Image.

Definition transform_call (t : transform) (img : Image) : result Image :=
  match t with
  | Resize h w => F_resize img (h, w)
  | FixedHeightResize s => FixedHeightResize_call s img
  | FixedWidthPad s => FixedWidthPad_call s img
  | DefocusBlur _ _ | JpegCompression _ _ => augment_call t img
  | GaussianBlur kernel_size =>
      if (im_width img <=? kernel_size / 2)
         || (im_height img <=? kernel_size / 2)
      then Raise RuntimeError
      else Ok img
  | Grayscale _ | RandomGrayscale _ | ColorJitter _
  | RandomRotation _ | ToTensor | Normalize _ _ => Ok img
  end.

(** [Compose.__call__]: the stages, applied in order. *)
Fixpoint Compose_call (transforms : list transform) (img : Image)
  : result Image :=
  match transforms with
  | [] => Ok img
  | t :: transforms' => img' ← transform_call t img; Compose_call transforms' img'
  end.

End Compose.

(** ** The loss of a well-formed batch, as a reference

    [sample_ok T D xs ts n]: a sample with [T] rows of logits, [D] target
    entries and a length [n] between 0 and [T], whose first [T] targets are
    class indices of their rows. *)
Definition sample_ok (T D : nat) (xs : list (list R)) (ts : list Z) (n : Z)
  : Prop :=
  length xs = T ∧ length ts = D ∧ 0 <= n <= Z.of_nat T ∧
  Forall2 in_range xs (take T ts).

(** The cross-entropy of the first [n] positions of a sample, and its sum
    over the batch. *)
Definition masked_sequence_cross_entropy (xs : list (list R)) (ts : list Z)
    (n : Z) : R :=
  Rsum (take (Z.to_nat n) (zip_with cross_entropy xs ts)).

Definition masked_total (input : list (list (list R)))
    (target : list (list Z)) (length_ : list Z) : R :=
  Rsum (zip_with (λ f n, f n)
          (zip_with masked_sequence_cross_entropy input target) length_).

Definition Zsum (l : list Z) : Z := foldr Z.add 0 l.

(** A batch of two samples of two time steps over two classes, with
    targets of three entries and the lengths 2 and 1; and a second batch
    that differs from it at the masked positions only. *)
Definition example_input : list (list (list R)) :=
  [[[0; 0]; [0; 0]]; [[1; 2]; [3; 4]]]%R.
Definition example_target : list (list Z) := [[0; 1; 0]; [1; 0; 1]].
Definition example_length : list Z := [2; 1].
Definition example_input_2 : list (list (list R)) :=
  [[[0; 0]; [0; 0]]; [[1; 2]; [5; 6]]]%R.
Definition example_target_2 : list (list Z) := [[0; 1; 7]; [1; 1; 1]].

(** Each row cut down to its length. *)
Definition truncate_rows {A} (length_ : list Z) (rows : list (list A))
  : list (list A) :=
  zip_with (λ n row, take (Z.to_nat n) row) length_ rows.

(** ** [models/crnn.py]: the layers and their sizes *)

Module CRNN.

Inductive layer : Set :=
| Conv2d (in_channels out_channels kernel_size stride padding : Z)
| BatchNorm2d (num_features : Z)
| ReLU (inplace : bool)
| LeakyReLU (negative_slope : Q) (inplace : bool)
| MaxPool2d (kernel_size : Z * Z) (stride : option (Z * Z)).

(** [nn.Sequential]: the named modules, in the order of registration. *)
Definition Sequential : Set := list (string * layer).

(** [cnn.add_module(name, module)]: a new name is appended, a name already
    present keeps its place and gets the new module. *)
Definition add_module (name : string) (module : layer) (cnn : Sequential)
  : Sequential :=
  if bool_decide (name ∈ cnn.*1) then
    (λ nm, if bool_decide (nm.1 = name) then (name, module) else nm) <$> cnn
  else cnn ++ [(name, module)].

(** [l[i]] for a Python list, negative indices counting from the end. *)
Definition list_get {A} (l : list A) (i : Z) : result A :=
  let j := if i <? 0 then Z.of_nat (length l) + i else i in
  if j <? 0 then Raise IndexError
  else match l !! Z.to_nat j with
       | Some x => Ok x
       | None => Raise IndexError
       end.

(** The inner function [conv_relu(i, batch_norm)] of [vgg_backbone]. *)
Definition conv_relu (channels kernel_sizes strides paddings : list Z)
    (leaky_relu : bool) (i : Z) (batch_norm : bool) (cnn : Sequential)
  : result Sequential :=
  input_channel ← list_get channels i;
  output_channel ← list_get channels (i + 1);
  kernel_size ← list_get kernel_sizes i;
  stride ← list_get strides i;
  padding ← list_get paddings i;
  let cnn :=
    add_module ("conv" +:+ pretty i)
      (Conv2d input_channel output_channel kernel_size stride padding) cnn in
  let cnn :=
    if batch_norm
    then add_module ("batchnorm" +:+ pretty i) (BatchNorm2d output_channel) cnn
    else cnn in
  let relu := if leaky_relu then LeakyReLU (Qmake 2 10) true else ReLU true in
  Ok (add_module ("relu" +:+ pretty i) relu cnn).

(** [vgg_backbone]: the stack and the size it declares for its output. *)
Definition vgg_backbone (img_channel img_height img_width : Z)
    (leaky_relu : bool) : result (Sequential * (Z * Z * Z)) :=
  _ ← py_assert (img_height `mod` 16 =? 0);
  _ ← py_assert (img_width `mod` 4 =? 0);
  let channels := [img_channel; 64; 128; 256; 256; 512; 512; 512] in
  let kernel_sizes := [3; 3; 3; 3; 3; 3; 2] in
  let strides := [1; 1; 1; 1; 1; 1; 1] in
  let paddings := [1; 1; 1; 1; 1; 1; 0] in
  let conv_relu := conv_relu channels kernel_sizes strides paddings leaky_relu in
  let cnn := [] in
  cnn ← conv_relu 0 false cnn;
  let cnn := add_module "pooling0" (MaxPool2d (2, 2) (Some (2, 2))) cnn in
  cnn ← conv_relu 1 false cnn;
  let cnn := add_module "pooling1" (MaxPool2d (2, 2) (Some (2, 2))) cnn in
  cnn ← conv_relu 2 false cnn;
  cnn ← conv_relu 3 false cnn;
  let cnn := add_module "pooling2" (MaxPool2d (2, 1) None) cnn in
  cnn ← conv_relu 4 true cnn;
  cnn ← conv_relu 5 true cnn;
  let cnn := add_module "pooling3" (MaxPool2d (2, 1) None) cnn in
  cnn ← conv_relu 6 false cnn;
  output_channel ← list_get channels (-1);
  Ok (cnn, (output_channel, img_height / 16 - 1, img_width / 4 - 1)).

(** The size a convolution gives along one axis; PyTorch rejects a padded
    input smaller than the kernel. *)
Definition conv_out (size kernel_size stride padding : Z) : result Z :=
  if size + 2 * padding <? kernel_size then Raise RuntimeError
  else Ok ((size + 2 * padding - kernel_size) / stride + 1).

(** The size a max-pooling gives along one axis; PyTorch rejects an output
    smaller than 1. *)
Definition pool_out (size kernel_size stride : Z) : result Z :=
  let out := (size - kernel_size) / stride + 1 in
  if out <? 1 then Raise RuntimeError else Ok out.

(** What a layer does to the size (batch, channels, height, width) of its
    input.  A convolution and a batch normalisation reject an input whose
    number of channels is not theirs; in training mode a batch normalisation
    first rejects, with a [ValueError], an input with a single value per
    channel. *)
Definition layer_size (training : bool) (l : layer) (s : Z * Z * Z * Z)
  : result (Z * Z * Z * Z) :=
  let '(n, c, h, w) := s in
  match l with
  | Conv2d in_channels out_channels k st p =>
      if c =? in_channels then
        h' ← conv_out h k st p;
        w' ← conv_out w k st p;
        Ok (n, out_channels, h', w')
      else Raise RuntimeError
  | BatchNorm2d num_features =>
      if training && (n * h * w =? 1) then Raise ValueError
      else if c =? num_features then Ok s else Raise RuntimeError
  | ReLU _ | LeakyReLU _ _ => Ok s
  | MaxPool2d (kh, kw) stride =>
      let '(sh, sw) := default (kh, kw) stride in
      h' ← pool_out h kh sh;
      w' ← pool_out w kw sw;
      Ok (n, c, h', w')
  end.

Fixpoint Sequential_size (training : bool) (cnn : Sequential)
    (s : Z * Z * Z * Z) : result (Z * Z * Z * Z) :=
  match cnn with
  | [] => Ok s
  | (_, l) :: cnn' =>
      s' ← layer_size training l s; Sequential_size training cnn' s'
  end.

(** The modules of a [CRNN]. *)
Inductive tps_module : Set :=
| Identity
| TPS_SpatialTransformerNetwork (F : Z) (I_size I_r_size : Z * Z)
    (I_channel_num : Z).

Inductive cnn_module : Set :=
| VGG (layers : Sequential)
| ResNet_FeatureExtractor (input_channel output_channel : Z).

Record Linear : Set := mkLinear { in_features : Z; out_features : Z }.

Record LSTM : Set := mkLSTM {
  input_size : Z;
  hidden_size : Z;
  bidirectional : bool
}.

Record t : Set := mk {
  tps : tps_module;
  feature_extractor : string;
  cnn : cnn_module;
  map_to_seq : Linear;
  rnn1 : LSTM;
  rnn2 : LSTM;
  dense : Linear;
  dropout1 : option Q;
  drop_out : Q
}.

(** [resnet_backbone] *)
Definition resnet_backbone (img_channel img_height img_width : Z)
  : cnn_module * (Z * Z * Z) :=
  let output_channel := 512 in
  let output_height := img_height / 16 - 1 in
  let output_width := img_width / 4 + 1 in
  (ResNet_FeatureExtractor img_channel 512,
   (output_channel, output_height, output_width)).

(** [nn.Dropout(p)] raises a [ValueError] unless 0 <= p <= 1. *)
Definition Dropout (p : Q) : result Q :=
  if Qle_bool 0 p && Qle_bool p 1 then Ok p else Raise ValueError.

(** [CRNN.__init__].  The layers are built for positive sizes, for which
    their constructors succeed; [initialize_weights] changes weights only.
    The attribute [dropout1] exists only for a positive [dropout]. *)
Definition init (img_channel img_height img_width num_class : Z)
    (map_to_seq_hidden rnn_hidden : Z) (leaky_relu : bool) (dropout : Q)
    (feature_extractor : string) (stn_on : bool) : result t :=
  let tps :=
    if stn_on then
      TPS_SpatialTransformerNetwork 20 (img_height, img_width)
        (img_height, img_width) 3
    else Identity in
  '(cnn, (output_channel, output_height, output_width)) ←
    (if bool_decide (feature_extractor = "vgg"%string) then
       '(layers, size) ←
         vgg_backbone img_channel img_height img_width leaky_relu;
       Ok (VGG layers, size)
     else if bool_decide (feature_extractor = "resnet"%string) then
       Ok (resnet_backbone img_channel img_height img_width)
     else Raise ValueError);
  let map_to_seq := mkLinear (output_channel * output_height) map_to_seq_hidden in
  let rnn1 := mkLSTM map_to_seq_hidden rnn_hidden true in
  let rnn2 := mkLSTM (2 * rnn_hidden) rnn_hidden true in
  let dense := mkLinear (2 * rnn_hidden) num_class in
  dropout1 ←
    (if Qlt_le_dec 0 dropout then p ← Dropout dropout; Ok (Some p)
     else Ok None);
  Ok (mk tps feature_extractor cnn map_to_seq rnn1 rnn2 dense dropout1 dropout).

(** [nn.Linear] and [nn.LSTM] act on the last axis, which must have the
    size they were built for. *)
Definition Linear_size (l : Linear) (s : Z * Z * Z) : result (Z * Z * Z) :=
  let '(a, b, f) := s in
  if f =? in_features l then Ok (a, b, out_features l)
  else Raise RuntimeError.

Definition LSTM_size (l : LSTM) (s : Z * Z * Z) : result (Z * Z * Z) :=
  let '(a, b, f) := s in
  if f =? input_size l
  then Ok (a, b, (if bidirectional l then 2 else 1) * hidden_size l)
  else Raise RuntimeError.

Section Forward.

(** The sizes produced by the two modules whose code is elsewhere. *)
Variable TPS_size : tps_module → Z * Z * Z * Z → result (Z * Z * Z * Z).
Variable ResNet_size : cnn_module → Z * Z * Z * Z → result (Z * Z * Z * Z).

Definition cnn_size (training : bool) (m : cnn_module) (s : Z * Z * Z * Z)
  : result (Z * Z * Z * Z) :=
  match m with
  | VGG layers => Sequential_size training layers s
  | ResNet_FeatureExtractor _ _ => ResNet_size m s
  end.

(** [CRNN.forward], on the sizes of the tensors: from images of size
    (batch, channel, height, width) to an output of size
    (seq_len, batch, num_class).  Dropout keeps the size. *)
Definition forward_size (training : bool) (self : t) (images : Z * Z * Z * Z)
  : result (Z * Z * Z) :=
  images ←
    match tps self with
    | Identity => Ok images
    | TPS_SpatialTransformerNetwork _ _ _ _ => TPS_size (tps self) images
    end;
  conv ← cnn_size training (cnn self) images;
  let '(batch, channel, height, width) := conv in
  let conv := (batch, channel * height, width) in
  let conv := let '(d0, d1, d2) := conv in (d2, d0, d1) in
  seq ← Linear_size (map_to_seq self) conv;
  recurrent ← LSTM_size (rnn1 self) seq;
  recurrent ← LSTM_size (rnn2 self) recurrent;
  Linear_size (dense self) recurrent.

End Forward.

(** [CRNN.forward], lines 96-98, on the entries: [view] merges the channel
    and height axes, [permute(2, 0, 1)] brings the width axis to the
    front. *)
Definition view_merge {A} (conv : list (list (list (list A))))
  : list (list (list A)) :=
  (λ sample, concat sample) <$> conv.

Definition permute_2_0_1 {A} (width : nat) (conv : list (list (list A)))
  : list (list (list A)) :=
  (λ w : nat,
     (λ sample : list (list A), omap (λ row : list A, row !! w) sample)
       <$> conv) <$> seq 0 width.

(** The entries [t[i][j][k]] and [t[i][j][k][l]] of a nested tensor. *)
Definition entry3 {A} (t : list (list (list A))) (i j k : nat) : option A :=
  match t !! i with
  | Some x => match x !! j with Some y => y !! k | None => None end
  | None => None
  end.

Definition entry4 {A} (t : list (list (list (list A)))) (i j k l : nat)
  : option A :=
  match t !! i with
  | Some x => entry3 x j k l
  | None => None
  end.

(** A tensor of size (B, C, H, W). *)
Definition conv_shape {A} (B C H W : nat) (conv : list (list (list (list A))))
  : Prop :=
  length conv = B ∧
  Forall (λ sample,
            length sample = C ∧
            Forall (λ map, length map = H ∧
                           Forall (λ row, length row = W) map) sample) conv.

End CRNN.

(** * Properties *)

(** ** Binary64 arithmetic on image dimensions

    Integers below [2^53] convert exactly to normal doubles, and the quotient
    of two normal doubles of moderate exponent is again normal: no overflow,
    no underflow, no NaN. *)

Module Float64Facts.
Import Float64.

Lemma digits2_pos_bounds (p : positive) :
  2 ^ (Z.pos (digits2_pos p) - 1) <= Z.pos p < 2 ^ Z.pos (digits2_pos p).
Proof.
  induction p as [p IH | p IH |]; simpl digits2_pos.
  - rewrite Pos2Z.inj_succ.
    replace (Z.succ (Z.pos (digits2_pos p)) - 1) with (Z.pos (digits2_pos p)) by lia.
    rewrite Z.pow_succ_r by lia. 
    assert (0 < 2 ^ (Z.pos (digits2_pos p) - 1)) by (apply Z.pow_pos_nonneg; lia).
    replace (2 ^ Z.pos (digits2_pos p)) with (2 * 2 ^ (Z.pos (digits2_pos p) - 1)) in *
      by (rewrite <- Z.pow_succ_r by lia; f_equal; lia).
    lia.
  - rewrite Pos2Z.inj_succ.
    replace (Z.succ (Z.pos (digits2_pos p)) - 1) with (Z.pos (digits2_pos p)) by lia.
    rewrite Z.pow_succ_r by lia. 
    replace (2 ^ Z.pos (digits2_pos p)) with (2 * 2 ^ (Z.pos (digits2_pos p) - 1)) in *
      by (rewrite <- Z.pow_succ_r by lia; f_equal; lia).
    lia.
  - simpl. lia.
Qed.

Lemma digits2_pos_unique (p : positive) (k : Z) :
  2 ^ (k - 1) <= Z.pos p < 2 ^ k -> Z.pos (digits2_pos p) = k.
Proof.
  intros [Hlo Hhi].
  pose proof (digits2_pos_bounds p) as [Hlo' Hhi'].
  assert (0 < k).
  { destruct (Z_lt_le_dec 0 k) as [|Hk]; [done|].
    assert (2 ^ k <= 2 ^ 0) by (apply Z.pow_le_mono_r; lia). simpl in *. lia. }
  assert (k - 1 < Z.pos (digits2_pos p)).
  { apply (Z.pow_lt_mono_r_iff 2); lia. }
  assert (Z.pos (digits2_pos p) - 1 < k).
  { apply (Z.pow_lt_mono_r_iff 2); lia. }
  lia.
Qed.

Lemma shr_m_shr_1 (mrs : shr_record) :
  0 <= shr_m mrs -> shr_m (shr_1 mrs) = shr_m mrs / 2.
Proof.
  destruct mrs as [m r s]; simpl. intros Hm.
  destruct m as [|p|p]; [done| |lia].
  destruct p as [p|p|]; simpl shr_m.
  - rewrite Pos2Z.inj_xI. apply Z.div_unique with 1; lia.
  - rewrite Pos2Z.inj_xO. apply Z.div_unique with 0; lia.
  - done.
Qed.

Lemma loc_of_shr_record_of_loc (m : Z) (l : location) :
  loc_of_shr_record (shr_record_of_loc m l) = l.
Proof. by destruct l as [|[]]. Qed.

Lemma shr_m_shr_record_of_loc (m : Z) (l : location) :
  shr_m (shr_record_of_loc m l) = m.
Proof. by destruct l as [|[]]. Qed.

Lemma round_nearest_even_bounds (m : Z) (l : location) :
  m <= round_nearest_even m l <= m + 1.
Proof.
  unfold round_nearest_even. destruct l as [|[]]; try lia.
  destruct (Z.even m); lia.
Qed.

(** One rounding step on a mantissa of 53 or 54 bits keeps 53 bits. *)
Lemma shr_fexp_normal (m e : Z) (l : location) :
  2 ^ 52 <= m < 2 ^ 54 -> emin prec emax <= e ->
  ∃ mrs e', shr_fexp prec emax m e l = (mrs, e') ∧
            2 ^ 52 <= shr_m mrs < 2 ^ 53 ∧ e <= e' <= e + 1.
Proof.
  intros Hm He. unfold shr_fexp.
  destruct m as [|p|p]; [lia| |lia].
  unfold Zdigits2.
  destruct (Z_lt_le_dec (Z.pos p) (2 ^ 53)) as [Hlt|Hge].
  - rewrite (digits2_pos_unique p 53) by (simpl; lia).
    replace (fexp prec emax (53 + e) - e) with 0
      by (unfold fexp, emin, prec, emax in *; lia).
    simpl. eexists _, _. split; [done|].
    rewrite shr_m_shr_record_of_loc. lia.
  - rewrite (digits2_pos_unique p 54) by (simpl; lia).
    replace (fexp prec emax (54 + e) - e) with 1
      by (unfold fexp, emin, prec, emax in *; lia).
    simpl shr. eexists _, _. split; [done|].
    rewrite shr_m_shr_1 by (rewrite shr_m_shr_record_of_loc; lia).
    rewrite shr_m_shr_record_of_loc.
    change (2 ^ 54) with (2 * 2 ^ 53) in Hm. change (2 ^ 53) with (2 * 2 ^ 52) in *.
    split; [|lia]. split.
    + apply Z.div_le_lower_bound; lia.
    + apply Z.div_lt_upper_bound; lia.
Qed.

Lemma binary_round_aux_normal (m e : Z) (l : location) :
  2 ^ 52 <= m < 2 ^ 54 -> emin prec emax <= e <= 900 ->
  normal e (e + 2) (binary_round_aux prec emax false m e l).
Proof.
  intros Hm He. unfold binary_round_aux.
  destruct (shr_fexp_normal m e l) as (mrs1 & e1 & -> & Hm1 & He1); [done|lia|].
  pose proof (round_nearest_even_bounds (shr_m mrs1) (loc_of_shr_record mrs1)) as Hr.
  destruct (shr_fexp_normal (round_nearest_even (shr_m mrs1) (loc_of_shr_record mrs1))
              e1 loc_Exact) as (mrs2 & e2 & -> & Hm2 & He2).
  { change (2 ^ 54) with (2 * 2 ^ 53). lia. }
  { lia. }
  destruct (shr_m mrs2) as [|p|p] eqn:Hp; [simpl in Hm2; lia| |lia].
  replace (e2 <=? emax - prec) with true
    by (symmetry; apply Z.leb_le; unfold emax, prec; lia).
  exists p, e2. repeat split; lia.
Qed.

Lemma pos_iter_xO (p k : positive) :
  Z.pos (Pos.iter xO p k) = Z.pos p * 2 ^ Z.pos k.
Proof.
  induction k as [|k IH] using Pos.peano_ind.
  - simpl. lia.
  - rewrite Pos.iter_succ, Pos2Z.inj_xO, IH, Pos2Z.inj_succ, Z.pow_succ_r by lia. lia.
Qed.

Lemma round_int_normal (z : Z) :
  0 < z < 2 ^ 53 ->
  normal (-52) 2 (round_int z).
Proof.
  intros Hz. destruct z as [|p|p]; [lia| |lia].
  unfold round_int, binary_normalize, binary_round.
  pose proof (digits2_pos_bounds p) as Hd.
  set (d := Z.pos (digits2_pos p)) in *.
  assert (1 <= d <= 53) as Hd53.
  { split; [lia|]. destruct (Z_lt_le_dec 53 d) as [Hlt|]; [|lia].
    assert (2 ^ 53 <= 2 ^ (d - 1)) by (apply Z.pow_le_mono_r; lia). lia. }
  replace (fexp prec emax (d + 0)) with (d - 53)
    by (unfold fexp, emin, prec, emax; lia).
  unfold shl_align.
  assert (∃ mz, (match d - 53 - 0 with
                 | Z.neg k => (Pos.iter xO p k, d - 53)
                 | _ => (p, 0)
                 end) = (mz, d - 53) ∧ 2 ^ 52 <= Z.pos mz < 2 ^ 53) as (mz & -> & Hmz).
  { destruct (d - 53 - 0) as [|k|k] eqn:Hk; [|lia|].
    - exists p. split; [f_equal; lia|]. replace (d - 1) with 52 in Hd by lia.
      replace d with 53 in Hd by lia. done.
    - exists (Pos.iter xO p k). split; [done|]. rewrite pos_iter_xO.
      assert (2 ^ 52 = 2 ^ (d - 1) * 2 ^ Z.pos k) as ->
        by (rewrite <- Z.pow_add_r by lia; f_equal; lia).
      assert (2 ^ 53 = 2 ^ d * 2 ^ Z.pos k) as ->
        by (rewrite <- Z.pow_add_r by lia; f_equal; lia).
      assert (0 < 2 ^ Z.pos k) by (apply Z.pow_pos_nonneg; lia).
      split; [apply Z.mul_le_mono_nonneg_r|apply Z.mul_lt_mono_pos_r]; lia. }
  destruct (binary_round_aux_normal (Z.pos mz) (d - 53) loc_Exact)
    as (m & e & -> & Hm & He); [lia|unfold emin, prec, emax; lia|].
  exists m, e. repeat split; lia.
Qed.

Lemma div_normal (x y : spec_float) (lo1 hi1 lo2 hi2 : Z) :
  normal lo1 hi1 x -> normal lo2 hi2 y ->
  emin prec emax + 53 <= lo1 - hi2 -> hi1 - lo2 <= 900 ->
  normal (lo1 - hi2 - 53) (hi1 - lo2 - 51) (div x y).
Proof.
  intros (m1 & e1 & -> & Hm1 & He1) (m2 & e2 & -> & Hm2 & He2) Hlo Hhi.
  unfold div, SFdiv, SFdiv_core_binary, Zdigits2.
  rewrite (digits2_pos_unique m1 53), (digits2_pos_unique m2 53) by (simpl; lia).
  replace (Z.min (fexp prec emax (53 + e1 - (53 + e2))) (e1 - e2)) with (e1 - e2 - 53)
    by (unfold fexp, emin, prec, emax in *; lia).
  replace (e1 - e2 - (e1 - e2 - 53)) with 53 by lia.
  rewrite Z.shiftl_mul_pow2 by lia.
  pose proof (Z_div_mod (Z.pos m1 * 2 ^ 53) (Z.pos m2) ltac:(lia)) as Hdm.
  destruct (Z.div_eucl (Z.pos m1 * 2 ^ 53) (Z.pos m2)) as [q r].
  destruct Hdm as [Hq Hr]. simpl xorb.
  assert (2 ^ 52 <= q < 2 ^ 54) as Hqb.
  { change (2 ^ 54) with (2 * 2 ^ 53). change (2 ^ 53) with (2 * 2 ^ 52) in *. nia. }
  destruct (binary_round_aux_normal q (e1 - e2 - 53) (new_location (Z.pos m2) r))
    as (m & e & -> & Hm & He); [done|lia|].
  exists m, e. repeat split; lia.
Qed.

Lemma of_int_normal (z : Z) :
  0 < z < 2 ^ 53 -> of_int z = Ok (round_int z) ∧ normal (-52) 2 (round_int z).
Proof.
  intros Hz. pose proof (round_int_normal z Hz) as Hn. split; [|done].
  unfold of_int. by destruct Hn as (m & e & -> & _).
Qed.

Lemma truediv_normal (x y : float) (lo hi : Z) :
  normal lo hi y -> truediv x y = Ok (div x y).
Proof. by intros (m & e & -> & _). Qed.

Lemma ceil_normal (x : float) (lo hi : Z) :
  normal lo hi x -> ∃ n, ceil x = Ok n ∧ 1 <= n.
Proof.
  intros (m & e & -> & Hm & _). simpl. eexists. split; [done|].
  unfold ceil_finite. simpl cond_Zopp.
  destruct (0 <=? e) eqn:He.
  - apply Z.leb_le in He.
    assert (0 < 2 ^ e) by (apply Z.pow_pos_nonneg; lia). nia.
  - apply Z.leb_gt in He.
    assert (0 < 2 ^ (- e)) by (apply Z.pow_pos_nonneg; lia).
    assert (- Z.pos m / 2 ^ (- e) < 0) by (apply Z.div_lt_upper_bound; lia).
    lia.
Qed.

End Float64Facts.

(** ** The geometric transforms

    PIL stores the dimensions of an image in C [int]s, so a valid dimension
    is below [2^31]. *)

Lemma FixedHeightResize_new_w_ok (H : Z) (img : Image) :
  0 < im_width img < 2 ^ 31 → 0 < im_height img < 2 ^ 31 → 0 < H < 2 ^ 31 →
  ∃ new_w,
    Float64.ceil
      (Float64.div (Float64.round_int H)
         (Float64.div (Float64.round_int (im_height img))
                      (Float64.round_int (im_width img)))) = Ok new_w ∧
    FixedHeightResize_new_w H img = Ok new_w ∧
    1 <= new_w.
Proof.
  intros Hw Hh HH. destruct img as [w h]; simpl in *.
  assert (2 ^ 31 < 2 ^ 53) as Hpow by done.
  destruct (Float64Facts.of_int_normal h) as [Eh Nh]; [lia|].
  destruct (Float64Facts.of_int_normal w) as [Ew Nw]; [lia|].
  destruct (Float64Facts.of_int_normal H) as [EH NH]; [lia|].
  pose proof (Float64Facts.div_normal _ _ _ _ _ _ Nh Nw) as Na.
  specialize (Na ltac:(unfold emin, Float64.prec, Float64.emax; lia) ltac:(lia)).
  pose proof (Float64Facts.div_normal _ _ _ _ _ _ NH Na) as Nq.
  specialize (Nq ltac:(unfold emin, Float64.prec, Float64.emax; lia) ltac:(lia)).
  destruct (Float64Facts.ceil_normal _ _ _ Nq) as (new_w & Hceil & Hpos).
  exists new_w. split; [done|]. split; [|done].
  unfold FixedHeightResize_new_w, size; simpl.
  rewrite Eh; simpl. rewrite Ew; simpl.
  rewrite (Float64Facts.truediv_normal _ _ _ _ Nw); simpl.
  rewrite EH; simpl.
  rewrite (Float64Facts.truediv_normal _ _ _ _ Na); simpl.
  done.
Qed.

Lemma FixedWidthPad_pads_eq (W : Z) (img : Image) :
  FixedWidthPad_pads W img =
    ((W - im_width img) / 2, (W - im_width img) - (W - im_width img) / 2).
Proof. done. Qed.

Lemma C_int_true (z : Z) : - 2 ^ 31 <= z < 2 ^ 31 → C_int z = true.
Proof.
  intros Hz. unfold C_int.
  rewrite (proj2 (Z.leb_le _ _)), (proj2 (Z.ltb_lt _ _)) by lia. done.
Qed.

Lemma C_int_spec (z : Z) : C_int z = true → - 2 ^ 31 <= z < 2 ^ 31.
Proof.
  unfold C_int. intros [H1 H2]%andb_true_iff.
  apply Z.leb_le in H1. apply Z.ltb_lt in H2. lia.
Qed.

Lemma C_int_false (z : Z) : 2 ^ 31 <= z → C_int z = false.
Proof.
  intros Hz. unfold C_int.
  rewrite (proj2 (Z.ltb_ge _ _)) by lia. apply andb_false_r.
Qed.

Lemma F_resize_ok (img : Image) (h w : Z) :
  1 <= h < 2 ^ 31 → 1 <= w < 2 ^ 31 → F_resize img (h, w) = Ok (mkImage w h).
Proof.
  intros Hh Hw. unfold F_resize.
  rewrite !C_int_true by lia. cbn [andb negb].
  rewrite (proj2 (Z.ltb_ge _ _)), (proj2 (Z.ltb_ge _ _)) by lia. done.
Qed.

Lemma F_resize_too_wide (img : Image) (h w : Z) :
  2 ^ 31 <= w → F_resize img (h, w) = Raise OverflowError.
Proof.
  intros Hw. unfold F_resize. by rewrite (C_int_false w), andb_false_r.
Qed.

Lemma FixedWidthPad_call_ok (W : Z) (img : Image) :
  0 <= W < 2 ^ 31 → 0 <= im_height img < 2 ^ 31 →
  FixedWidthPad_call W img = Ok (mkImage W (im_height img)).
Proof.
  intros HW Hh. unfold FixedWidthPad_call. rewrite FixedWidthPad_pads_eq.
  unfold F_pad, size. cbn [im_width im_height].
  replace ((W - im_width img) / 2 + im_width img
           + (W - im_width img - (W - im_width img) / 2)) with W by lia.
  replace (0 + im_height img + 0) with (im_height img) by lia.
  rewrite (proj2 (Z.ltb_ge _ _)), (proj2 (Z.ltb_ge _ _)) by lia.
  rewrite !C_int_true by lia. done.
Qed.

Lemma FixedHeightResize_call_ok (H : Z) (img : Image) :
  0 < im_width img < 2 ^ 31 → 0 < im_height img < 2 ^ 31 → 0 < H < 2 ^ 31 →
  ∃ new_w,
    FixedHeightResize_new_w H img = Ok new_w ∧ 1 <= new_w ∧
    FixedHeightResize_call H img
    = if new_w <? 2 ^ 31 then Ok (mkImage new_w H) else Raise OverflowError.
Proof.
  intros Hw Hh HH.
  destruct (FixedHeightResize_new_w_ok H img Hw Hh HH)
    as (new_w & _ & Hnew & Hpos).
  exists new_w. split; [done|]. split; [done|].
  unfold FixedHeightResize_call. rewrite Hnew. cbn [mbind result_bind].
  destruct (Z.ltb_spec new_w (2 ^ 31)).
  - apply F_resize_ok; lia.
  - by apply F_resize_too_wide.
Qed.

(** C3, as the code has it.  For an image of positive width [w] and height
    [h], a target height [H] and a target width [W], all of them dimensions
    that PIL can hold (below [2^31]), the new width [w'] of
    [FixedHeightResize(H)] is the ceiling of the double-precision quotient
    [H / (h / w)] and is at least 1.  If [w'] does not fit a C [int] the
    resize raises [OverflowError]; otherwise it returns an image of [w'] by
    [H], and [FixedWidthPad(W)] then pads it by [pad = W - w'], split as
    [pad_left = pad // 2] and [pad_right = pad - pad_left], to exactly [W]
    by [H].  In particular a 100 by 50 (h by w) image with [H = 32] is
    resized to width 16 and padded to width 32 with 8 columns on each
    side. *)
Theorem resize_then_pad_exact_size :
  (∀ (H W : Z) (img : Image),
     0 < im_width img < 2 ^ 31 → 0 < im_height img < 2 ^ 31 →
     0 < H < 2 ^ 31 → 0 <= W < 2 ^ 31 →
     ∃ w',
       Float64.ceil
         (Float64.div (Float64.round_int H)
            (Float64.div (Float64.round_int (im_height img))
                         (Float64.round_int (im_width img)))) = Ok w' ∧
       1 <= w' ∧
       (2 ^ 31 <= w' →
        FixedHeightResize_call H img = Raise OverflowError) ∧
       (w' < 2 ^ 31 →
        FixedHeightResize_call H img = Ok (mkImage w' H) ∧
        FixedWidthPad_pads W (mkImage w' H)
          = ((W - w') / 2, (W - w') - (W - w') / 2) ∧
        FixedWidthPad_call W (mkImage w' H) = Ok (mkImage W H) ∧
        (FixedHeightResize_call H img ≫= FixedWidthPad_call W)
          = Ok (mkImage W H)))
  ∧ FixedHeightResize_call 32 (mkImage 50 100) = Ok (mkImage 16 32)
  ∧ FixedWidthPad_pads 32 (mkImage 16 32) = (8, 8)
  ∧ FixedWidthPad_call 32 (mkImage 16 32) = Ok (mkImage 32 32).
Proof.
  split; [|by vm_compute].
  intros H W img Hw Hh HH HW.
  destruct (FixedHeightResize_new_w_ok H img Hw Hh HH)
    as (w' & Hceil & Hnew & Hpos).
  exists w'. split; [done|]. split; [done|].
  unfold FixedHeightResize_call. rewrite Hnew. cbn [mbind result_bind].
  split.
  - intros Hbig. by apply F_resize_too_wide.
  - intros Hfit. rewrite F_resize_ok by lia.
    assert (FixedWidthPad_call W (mkImage w' H) = Ok (mkImage W H)) as Hpad.
    { rewrite FixedWidthPad_call_ok; cbn [im_height]; [done|lia..]. }
    split; [done|]. split; [done|]. split; [done|]. exact Hpad.
Qed.

Lemma resize_then_pad_exact_size_witness :
  ∃ w',
    FixedHeightResize_call 64 (mkImage 49 1) = Ok (mkImage w' 64) ∧
    FixedWidthPad_call 128 (mkImage w' 64) = Ok (mkImage 128 64).
Proof.
  destruct (proj1 resize_then_pad_exact_size 64 128 (mkImage 49 1))
    as (w' & Hceil & _ & _ & Hfit); cbn [im_width im_height]; try lia.
  assert (w' < 2 ^ 31) as Hw'.
  { vm_compute in Hceil. injection Hceil as <-. reflexivity. }
  destruct (Hfit Hw') as (Hcall & _ & Hpad & _).
  exists w'. split; [exact Hcall | exact Hpad].
Defined.

(** The width of the resize is not the exact ceiling: an image 103 wide and
    32 high, resized to its own height 32, becomes 104 wide, the quotient
    [32 / (32 / 103)] being a double just above 103.  And a target height
    within the range of a C [int] can ask for a width outside it: a 4 by 1
    (w by h) image resized to the height [2^30] raises [OverflowError]. *)
Lemma resize_width_not_exact_ceiling :
  FixedHeightResize_call 32 (mkImage 103 32) = Ok (mkImage 104 32) ∧
  exact_new_w 32 (mkImage 103 32) = 103 ∧
  FixedHeightResize_call (2 ^ 30) (mkImage 4 1) = Raise OverflowError.
Proof. by vm_compute. Qed.

(** C9.  For every image and every target width [W] that PIL can hold,
    [FixedWidthPad(W)] returns an image of width exactly [W] and unchanged
    height.  The two borders always add up to [pad = W - w]; [pad_left] is
    the floor of [pad / 2], so the borders differ by at most one and, when
    the image is at least as wide as [W], satisfy
    [pad_left <= pad_right <= 0]: the negative borders crop and the call
    does not fail. *)
Theorem FixedWidthPad_exact_width (W : Z) (img : Image) :
  0 <= W < 2 ^ 31 →
  0 <= im_width img < 2 ^ 31 → 0 <= im_height img < 2 ^ 31 →
  let pad := W - im_width img in
  let '(pad_left, pad_right) := FixedWidthPad_pads W img in
  pad_left = pad / 2 ∧
  pad_left + pad_right = pad ∧
  pad_left <= pad_right <= pad_left + 1 ∧
  (pad <= 0 → pad_left <= pad_right <= 0) ∧
  FixedWidthPad_call W img = Ok (mkImage W (im_height img)).
Proof.
  intros HW _ Hh. rewrite FixedWidthPad_pads_eq. simpl.
  pose proof (Z.div_mod (W - im_width img) 2 ltac:(lia)) as Hdm.
  pose proof (Z.mod_pos_bound (W - im_width img) 2 ltac:(lia)) as Hm.
  repeat split; try lia.
  by apply FixedWidthPad_call_ok.
Qed.

Lemma FixedWidthPad_exact_width_witness :
  FixedWidthPad_pads 32 (mkImage 35 32) = (-2, -1) ∧
  FixedWidthPad_call 32 (mkImage 35 32) = Ok (mkImage 32 32).
Proof.
  pose proof (FixedWidthPad_exact_width 32 (mkImage 35 32)) as Hpad.
  simpl in Hpad. split; [reflexivity|].
  apply Hpad; lia.
Defined.

(** ** Slices and ranges *)

Lemma slice_to_nonneg {A} (n : Z) (l : list A) :
  0 <= n → slice_to n l = take (Z.to_nat n) l.
Proof.
  intros Hn. unfold slice_to, slice_index.
  destruct (n <? 0) eqn:E; [apply Z.ltb_lt in E; lia|].
  destruct (Nat.min_spec (Z.to_nat n) (length l)) as [[_ ->]|[Hle ->]]; [done|].
  by rewrite !take_ge by lia.
Qed.

Lemma slice_from_nonneg {A} (n : Z) (l : list A) :
  0 <= n → slice_from n l = drop (Z.to_nat n) l.
Proof.
  intros Hn. unfold slice_from, slice_index.
  destruct (n <? 0) eqn:E; [apply Z.ltb_lt in E; lia|].
  destruct (Nat.min_spec (Z.to_nat n) (length l)) as [[_ ->]|[Hle ->]]; [done|].
  by rewrite !drop_ge by lia.
Qed.

Lemma length_arange (lo hi : Z) : length (arange lo hi) = Z.to_nat (hi - lo).
Proof. apply length_seqZ. Qed.

Lemma elem_of_arange (lo hi k : Z) : k ∈ arange lo hi ↔ lo <= k < hi.
Proof. unfold arange. rewrite elem_of_seqZ. lia. Qed.

Lemma arange_app (lo mid hi : Z) :
  lo <= mid <= hi → arange lo mid ++ arange mid hi = arange lo hi.
Proof.
  intros Hm. unfold arange.
  replace (hi - lo) with ((mid - lo) + (hi - mid)) by lia.
  rewrite seqZ_app by lia. do 2 f_equal. lia.
Qed.

Lemma NoDup_arange (lo hi : Z) : NoDup (arange lo hi).
Proof. apply NoDup_seqZ. Qed.

(** ** The train/validation partition

    [np.random.shuffle] returns a permutation of the array it is given. *)

Section Partition.

Context {rng : Type}.
Variable seed_state : Z → rng.
Variable np_random_shuffle : list Z → rng → list Z * rng.
Hypothesis np_random_shuffle_perm :
  ∀ l g, (np_random_shuffle l g).1 ≡ₚ l.

#[local] Abbreviation run := (get_data seed_state np_random_shuffle).
#[local] Abbreviation form := (shuffled_form seed_state np_random_shuffle).
#[local] Abbreviation wild := (shuffled_wild seed_state np_random_shuffle).
#[local] Abbreviation train_of := (train_inds_of seed_state np_random_shuffle).
#[local] Abbreviation val_of := (val_inds_of seed_state np_random_shuffle).

Lemma np_random_seed_ok (seed : Z) :
  0 <= seed < 2 ^ 32 → np_random_seed seed_state seed = Ok (seed_state seed).
Proof.
  intros Hs. unfold np_random_seed.
  destruct (0 <=? seed) eqn:E1; [|apply Z.leb_gt in E1; lia].
  destruct (seed <? 2 ^ 32) eqn:E2; [done|apply Z.ltb_ge in E2; lia].
Qed.

Lemma get_data_split_train_nocap (len : Z) (args : Args)
    (tds vds : Dataset) (seed : Z) :
  train args = true → num_samples args <= 0 →
  get_data_split np_random_shuffle len args tds vds (seed_state seed)
  = Ok (Subset tds (train_of seed), Some (Subset vds (val_of seed))).
Proof.
  intros Ht Hn. unfold get_data_split. rewrite Ht.
  unfold train_inds_of, val_inds_of, shuffled_wild, shuffled_form.
  destruct (np_random_shuffle (arange 0 51000) (seed_state seed)) as [f g1].
  cbn [fst snd].
  destruct (np_random_shuffle (arange 51000 99000) g1) as [w g2].
  cbn [fst snd].
  destruct (0 <? num_samples args) eqn:E; [apply Z.ltb_lt in E; lia|].
  rewrite !slice_to_nonneg, !slice_from_nonneg by lia. done.
Qed.

Lemma get_data_ok (len batch_size seed : Z) (args : Args)
    (train_set : data_set) (val_set : option data_set) :
  0 <= seed < 2 ^ 32 → 0 < batch_size →
  let dataset := (get_data_dataset args).1 in
  let collate := (get_data_dataset args).2 in
  let train_dataset :=
    mkDataset dataset TRAIN_DIR true "train" (get_data_transforms seed args).1 in
  let val_dataset :=
    mkDataset dataset TRAIN_DIR true "train" (get_data_transforms seed args).2 in
  let test_dataset :=
    mkDataset dataset PUBLIC_TEST_DIR false "public_test"
      (get_data_transforms seed args).2 in
  get_data_split np_random_shuffle len args train_dataset val_dataset
    (seed_state seed) = Ok (train_set, val_set) →
  0 < data_set_len len train_set →
  run len batch_size seed args
  = Ok (mkLoaders
          (mkDataLoader train_set batch_size true true (Some collate) true 2)
          (if train args then
             (λ s, mkDataLoader s batch_size false false (Some collate) true 2)
               <$> val_set
           else None)
          (mkDataLoader (Whole test_dataset) batch_size false false None
             true 2)
          train_dataset val_dataset test_dataset).
Proof.
  intros Hs Hb dataset collate train_dataset val_dataset test_dataset
    Hsplit Hlen.
  subst dataset collate train_dataset val_dataset test_dataset.
  unfold get_data. rewrite np_random_seed_ok by done.
  cbn [mbind result_bind].
  destruct (get_data_transforms seed args) as [ttr tte].
  destruct (get_data_dataset args) as [ds co]. cbn [fst snd] in *.
  rewrite Hsplit. cbn [mbind result_bind].
  unfold RandomSampler_init, DataLoader_init.
  rewrite (proj2 (Z.leb_gt _ _) Hlen), (proj2 (Z.leb_gt _ _) Hb).
  cbn [mbind result_bind].
  destruct (train args); [destruct val_set|]; reflexivity.
Qed.

Lemma shuffled_form_perm (seed : Z) : form seed ≡ₚ arange 0 51000.
Proof. apply np_random_shuffle_perm. Qed.

Lemma shuffled_wild_perm (seed : Z) : wild seed ≡ₚ arange 51000 99000.
Proof. apply np_random_shuffle_perm. Qed.

Lemma length_shuffled_form (seed : Z) :
  length (form seed) = Z.to_nat 51000.
Proof. by rewrite shuffled_form_perm, length_arange. Qed.

Lemma length_shuffled_wild (seed : Z) :
  length (wild seed) = Z.to_nat 48000.
Proof. by rewrite shuffled_wild_perm, length_arange. Qed.

Lemma train_val_perm (seed : Z) :
  train_of seed ++ val_of seed ≡ₚ arange 0 103000.
Proof.
  unfold train_inds_of, val_inds_of.
  rewrite <- (arange_app 0 99000 103000), <- (arange_app 0 51000 99000) by lia.
  rewrite <- (shuffled_form_perm seed), <- (shuffled_wild_perm seed).
  rewrite <- (take_drop (Z.to_nat 5100) (form seed)) at 3.
  rewrite <- (take_drop (Z.to_nat 4800) (wild seed)) at 3.
  solve_Permutation.
Qed.

Lemma length_val_of (seed : Z) : length (val_of seed) = Z.to_nat 9900.
Proof.
  unfold val_inds_of.
  rewrite length_app, !length_take, length_shuffled_form, length_shuffled_wild.
  lia.
Qed.

Lemma length_train_of (seed : Z) : length (train_of seed) = Z.to_nat 93100.
Proof.
  unfold train_inds_of.
  rewrite !length_app, !length_drop, length_shuffled_form,
    length_shuffled_wild, length_arange.
  lia.
Qed.

Lemma get_data_train_nocap (len batch_size seed : Z) (args : Args) :
  0 <= seed < 2 ^ 32 → 0 < batch_size →
  train args = true → num_samples args <= 0 →
  ∃ r, run len batch_size seed args = Ok r ∧
       train_indices r = Some (train_of seed) ∧
       val_indices r = Some (val_of seed).
Proof.
  intros Hs Hb Ht Hn.
  erewrite get_data_ok;
    [|done|done|by apply get_data_split_train_nocap
     |cbn [data_set_len]; rewrite length_train_of; lia].
  eexists. split; [reflexivity|]. unfold train_indices, val_indices.
  rewrite Ht. done.
Qed.

Lemma val_of_range (seed i : Z) : i ∈ val_of seed → 0 <= i < 99000.
Proof.
  unfold val_inds_of. rewrite elem_of_app. intros [Hi|Hi].
  - apply subseteq_take in Hi. rewrite shuffled_form_perm in Hi.
    apply elem_of_arange in Hi. lia.
  - apply subseteq_take in Hi. rewrite shuffled_wild_perm in Hi.
    apply elem_of_arange in Hi. lia.
Qed.

Lemma train_val_disjoint (seed i : Z) : i ∈ train_of seed → i ∉ val_of seed.
Proof.
  pose proof (NoDup_arange 0 103000) as Hnd.
  rewrite <- (train_val_perm seed) in Hnd.
  apply NoDup_app in Hnd as (_ & Hdisj & _). apply Hdisj.
Qed.

Lemma train_val_cover (seed i : Z) :
  i ∈ train_of seed ∨ i ∈ val_of seed ↔ 0 <= i < 103000.
Proof. by rewrite <- elem_of_app, train_val_perm, elem_of_arange. Qed.

(** C1.  For every seed and every batch size that a [DataLoader] accepts,
    in training mode without a sample cap, the validation indices are the first 5100 entries of the shuffled form range
    [0, 51000) followed by the first 4800 entries of the shuffled wild range
    [51000, 99000); the training indices are the remaining form and wild
    entries followed by the whole synthetic range [99000, 103000).  Each
    shuffled range is a permutation of its range, so no synthetic index is
    a validation index. *)
Theorem partition_validation_training (len batch_size seed : Z) (args : Args) :
  0 <= seed < 2 ^ 32 → 0 < batch_size →
  train args = true → num_samples args <= 0 →
  ∃ r val_inds train_inds,
    run len batch_size seed args = Ok r ∧
    val_indices r = Some val_inds ∧
    train_indices r = Some train_inds ∧
    val_inds = take (Z.to_nat 5100) (form seed)
                 ++ take (Z.to_nat 4800) (wild seed) ∧
    train_inds = drop (Z.to_nat 5100) (form seed)
                   ++ drop (Z.to_nat 4800) (wild seed)
                   ++ arange 99000 103000 ∧
    form seed ≡ₚ arange 0 51000 ∧
    wild seed ≡ₚ arange 51000 99000 ∧
    length (take (Z.to_nat 5100) (form seed)) = Z.to_nat 5100 ∧
    length (take (Z.to_nat 4800) (wild seed)) = Z.to_nat 4800 ∧
    (∀ i, 99000 <= i < 103000 → (i ∉ val_inds) ∧ (i ∈ train_inds)).
Proof.
  intros Hs Hb Ht Hn.
  destruct (get_data_train_nocap len batch_size seed args Hs Hb Ht Hn)
    as (r & Hr & Htr & Hva).
  exists r, (val_of seed), (train_of seed).
  split; [exact Hr|]. split; [exact Hva|]. split; [exact Htr|].
  split; [reflexivity|]. split; [reflexivity|].
  split; [apply shuffled_form_perm|]. split; [apply shuffled_wild_perm|].
  split; [|split].
  - rewrite length_take, length_shuffled_form. lia.
  - rewrite length_take, length_shuffled_wild. lia.
  - intros i Hi. split.
    + intros Hv%val_of_range. lia.
    + unfold train_inds_of. rewrite !elem_of_app, elem_of_arange. lia.
Qed.

(** C2.  For every seed and every batch size that a [DataLoader] accepts,
    in training mode without a sample cap, the train index set and the validation index set are disjoint and their union is
    the whole range [0, 103000). *)
Theorem partition_disjoint_cover (len batch_size seed : Z) (args : Args) :
  0 <= seed < 2 ^ 32 → 0 < batch_size →
  train args = true → num_samples args <= 0 →
  ∃ r train_inds val_inds,
    run len batch_size seed args = Ok r ∧
    train_indices r = Some train_inds ∧
    val_indices r = Some val_inds ∧
    (list_to_set train_inds : gset Z) ## list_to_set val_inds ∧
    (list_to_set train_inds : gset Z) ∪ list_to_set val_inds
      = list_to_set (arange 0 103000) ∧
    (∀ i, i ∈ train_inds → i ∉ val_inds) ∧
    (∀ i, i ∈ train_inds ∨ i ∈ val_inds ↔ 0 <= i < 103000).
Proof.
  intros Hs Hb Ht Hn.
  destruct (get_data_train_nocap len batch_size seed args Hs Hb Ht Hn)
    as (r & Hr & Htr & Hva).
  exists r, (train_of seed), (val_of seed).
  split; [exact Hr|]. split; [exact Htr|]. split; [exact Hva|].
  split; [|split; [|split]].
  - intros i Hi1%elem_of_list_to_set Hi2%elem_of_list_to_set.
    by apply (train_val_disjoint seed i).
  - apply set_eq. intros i.
    rewrite elem_of_union, !elem_of_list_to_set, elem_of_arange.
    apply train_val_cover.
  - apply train_val_disjoint.
  - apply train_val_cover.
Qed.

(** C6, as the code has it.  The partitioner never consults the corpus
    size: in training mode without a sample cap and with a batch size that
    a [DataLoader] accepts, it raises no error and returns, for every corpus
    size, the index sets built from the fixed boundaries 51000, 99000 and
    103000 and the fixed reservations 5100 and 4800, that is 93100 training
    and 9900 validation indices. *)
Theorem partition_ignores_corpus_size
    (len len' batch_size seed : Z) (args : Args) :
  0 <= seed < 2 ^ 32 → 0 < batch_size →
  train args = true → num_samples args <= 0 →
  ∃ r train_inds val_inds,
    run len batch_size seed args = Ok r ∧
    run len' batch_size seed args = Ok r ∧
    train_indices r = Some train_inds ∧
    val_indices r = Some val_inds ∧
    length train_inds = Z.to_nat 93100 ∧
    length val_inds = Z.to_nat 9900.
Proof.
  intros Hs Hb Ht Hn.
  assert (run len batch_size seed args = run len' batch_size seed args) as Heq.
  { erewrite (get_data_ok len);
      [|done|done|by apply get_data_split_train_nocap
       |cbn [data_set_len]; rewrite length_train_of; lia].
    erewrite (get_data_ok len');
      [|done|done|by apply get_data_split_train_nocap
       |cbn [data_set_len]; rewrite length_train_of; lia].
    done. }
  destruct (get_data_train_nocap len batch_size seed args Hs Hb Ht Hn)
    as (r & Hr & Htr & Hva).
  exists r, (train_of seed), (val_of seed).
  split; [exact Hr|]. split; [by rewrite <- Heq|].
  split; [exact Htr|]. split; [exact Hva|].
  split; [apply length_train_of|apply length_val_of].
Qed.

(** C5, as the code has it.  Without a sample cap, with a batch size that
    a [DataLoader] accepts and, outside training mode, a training dataset
    that is not empty, pipeline construction succeeds whatever the resize
    mode and the model name: every resize value other than 1 selects
    fixed-height resize followed by fixed-width pad, and every model name
    other than "crnn" and "cnnctc" selects [HandWrittenDatasetV2] with
    [collate_fn]. *)
Theorem unsupported_options_fall_back (len batch_size seed : Z) (args : Args) :
  0 <= seed < 2 ^ 32 → 0 < batch_size →
  (train args = false → 0 < len) → num_samples args <= 0 →
  ∃ r,
    run len batch_size seed args = Ok r ∧
    (resize args ≠ 1 →
       ds_transform (train_dataset r)
         = augmentations seed args
             ++ [FixedHeightResize (height args); FixedWidthPad (width args)]
             ++ tensor_normalize ∧
       ds_transform (test_dataset r)
         = (if grayscale args then [Grayscale 3] else [])
             ++ [FixedHeightResize (height args); FixedWidthPad (width args)]
             ++ tensor_normalize) ∧
    (model_name args ∉ ["crnn"; "cnnctc"]%string →
       ds_class (train_dataset r) = HandWrittenDatasetV2 ∧
       ds_class (val_dataset r) = HandWrittenDatasetV2 ∧
       ds_class (test_dataset r) = HandWrittenDatasetV2 ∧
       dl_collate_fn (train_loader r) = Some collate_fn).
Proof.
  intros Hs Hb Hlen Hn.
  assert (∃ ts vs,
            get_data_split np_random_shuffle len args
              (mkDataset (get_data_dataset args).1 TRAIN_DIR true "train"
                 (get_data_transforms seed args).1)
              (mkDataset (get_data_dataset args).1 TRAIN_DIR true "train"
                 (get_data_transforms seed args).2)
              (seed_state seed) = Ok (ts, vs) ∧
            0 < data_set_len len ts) as (ts & vs & Hsplit & Hpos).
  { destruct (train args) eqn:Ht.
    - eexists _, _. split; [by apply get_data_split_train_nocap|].
      cbn [data_set_len]. rewrite length_train_of. lia.
    - unfold get_data_split. rewrite Ht.
      destruct (0 <? num_samples args) eqn:E; [apply Z.ltb_lt in E; lia|].
      eexists _, _. split; [reflexivity|]. cbn [data_set_len]. by apply Hlen. }
  rewrite (get_data_ok len batch_size seed args ts vs Hs Hb Hsplit Hpos).
  eexists. split; [reflexivity|].
  cbn [train_dataset val_dataset test_dataset train_loader ds_transform
       ds_class dl_collate_fn].
  split.
  - intros Hr. unfold get_data_transforms.
    destruct (resize args =? 1) eqn:E; [apply Z.eqb_eq in E; lia|].
    by destruct (grayscale args).
  - intros Hm. unfold get_data_dataset.
    by rewrite bool_decide_eq_false_2.
Qed.

End Partition.

(** *** The partition on the stand-in generator *)

Lemma reversing_shuffle_perm (l : list Z) (g : Z) :
  (reversing_shuffle l g).1 ≡ₚ l.
Proof. apply reverse_Permutation. Qed.

Lemma partition_validation_training_witness :
  ∃ r val_inds train_inds,
    get_data counting_state reversing_shuffle 103000 64 42 args_train = Ok r ∧
    val_indices r = Some val_inds ∧
    train_indices r = Some train_inds ∧
    (∀ i, 99000 <= i < 103000 → (i ∉ val_inds) ∧ (i ∈ train_inds)).
Proof.
  destruct (partition_validation_training counting_state reversing_shuffle
              reversing_shuffle_perm 103000 64 42 args_train)
    as (r & v & t & Hr & Hv & Ht & _ & _ & _ & _ & _ & _ & Hsyn).
  - lia.
  - lia.
  - reflexivity.
  - simpl. lia.
  - exists r, v, t. auto.
Defined.

Lemma partition_disjoint_cover_witness :
  ∃ r train_inds val_inds,
    get_data counting_state reversing_shuffle 103000 64 42 args_train = Ok r ∧
    train_indices r = Some train_inds ∧
    val_indices r = Some val_inds ∧
    (∀ i, i ∈ train_inds → i ∉ val_inds) ∧
    (∀ i, i ∈ train_inds ∨ i ∈ val_inds ↔ 0 <= i < 103000).
Proof.
  destruct (partition_disjoint_cover counting_state reversing_shuffle
              reversing_shuffle_perm 103000 64 42 args_train)
    as (r & t & v & Hr & Ht & Hv & _ & _ & Hdisj & Hcover).
  - lia.
  - lia.
  - reflexivity.
  - simpl. lia.
  - exists r, t, v. auto.
Defined.

(** A corpus of 10 samples lies below every range boundary, and the
    partitioner still returns its index sets. *)
Lemma partition_small_corpus_no_error :
  (∃ r train_inds val_inds,
     get_data counting_state reversing_shuffle 10 64 42 args_train = Ok r ∧
     train_indices r = Some train_inds ∧
     val_indices r = Some val_inds) ∧
  (∀ e, get_data counting_state reversing_shuffle 10 64 42 args_train
        ≠ Raise e).
Proof.
  destruct (get_data_train_nocap counting_state reversing_shuffle
              reversing_shuffle_perm 10 64 42 args_train)
    as (r & Hr & Ht & Hv); [lia|lia|reflexivity|simpl; lia|].
  split.
  - exists r. eauto.
  - intros e He. rewrite Hr in He. discriminate.
Qed.

Lemma partition_ignores_corpus_size_witness :
  ∃ r,
    get_data counting_state reversing_shuffle 10 64 42 args_train = Ok r ∧
    get_data counting_state reversing_shuffle 103000 64 42 args_train = Ok r.
Proof.
  destruct (partition_ignores_corpus_size counting_state reversing_shuffle
              reversing_shuffle_perm 10 103000 64 42 args_train)
    as (r & t & v & Hr & Hr' & _).
  - lia.
  - lia.
  - reflexivity.
  - simpl. lia.
  - exists r. auto.
Defined.

(** With resize mode 7 and model name "transformer" the pipeline is built:
    the fixed-height transforms and [HandWrittenDatasetV2] are used. *)
Lemma unknown_options_no_error :
  (∃ r,
     get_data counting_state reversing_shuffle 103000 64 42
       args_unknown_options = Ok r ∧
     ds_class (train_dataset r) = HandWrittenDatasetV2 ∧
     ds_transform (test_dataset r)
       = [FixedHeightResize 32; FixedWidthPad 128] ++ tensor_normalize) ∧
  (∀ e, get_data counting_state reversing_shuffle 103000 64 42
          args_unknown_options ≠ Raise e).
Proof.
  assert (∃ r, get_data counting_state reversing_shuffle 103000 64 42
                 args_unknown_options = Ok r ∧
               ds_class (train_dataset r) = HandWrittenDatasetV2 ∧
               ds_transform (test_dataset r)
                 = [FixedHeightResize 32; FixedWidthPad 128]
                     ++ tensor_normalize) as (r & Hr & Hc & Ht).
  { eexists. split; [vm_compute; reflexivity|]. split; reflexivity. }
  split.
  - exists r. auto.
  - intros e He. rewrite Hr in He. discriminate.
Qed.

Lemma unsupported_options_fall_back_witness :
  ∃ r,
    get_data counting_state reversing_shuffle 103000 64 42
      args_unknown_options = Ok r ∧
    ds_class (train_dataset r) = HandWrittenDatasetV2 ∧
    dl_collate_fn (train_loader r) = Some collate_fn.
Proof.
  destruct (unsupported_options_fall_back counting_state reversing_shuffle
              reversing_shuffle_perm 103000 64 42 args_unknown_options)
    as (r & Hr & _ & Hm).
  - lia.
  - lia.
  - intros _. lia.
  - simpl. lia.
  - exists r. split; [exact Hr|].
    destruct Hm as (Hc & _ & _ & Hco).
    + vm_compute. intros Hin. inversion Hin as [|? ? ? Hin']; subst.
      inversion Hin' as [|? ? ? Hin'']; subst. inversion Hin''.
    + auto.
Defined.

(** ** The mask of the sequence loss *)

Lemma fill_prefix_zeros (D : nat) (n : Z) :
  fill_prefix n (replicate D 0%R) = mask_row D n.
Proof.
  unfold fill_prefix, mask_row.
  by rewrite length_replicate, drop_replicate.
Qed.

Lemma mask_loop_seq (n k : nat) (len : list Z) (mask : list (list R)) :
  (k + n ≤ length len)%nat →
  ∃ mask',
    mask_loop (seq k n) len mask = Ok mask' ∧
    ∀ i, mask' !! i =
         if decide (k ≤ i < k + n)%nat
         then fill_prefix (len !!! i) <$> mask !! i
         else mask !! i.
Proof.
  revert k mask. induction n as [|n IH]; intros k mask Hlen; simpl.
  - exists mask. split; [done|]. intros i. case_decide; [lia|done].
  - destruct (lookup_lt_is_Some_2 len k) as [v Hv]; [lia|]. rewrite Hv.
    destruct (IH (S k) (alter (fill_prefix v) k mask)) as (mask' & -> & Hm);
      [lia|].
    exists mask'. split; [done|]. intros i. rewrite Hm.
    destruct (decide (i = k)) as [->|Hne].
    + rewrite list_lookup_alter_eq.
      rewrite (list_lookup_total_correct len k v Hv).
      repeat case_decide; (lia || done).
    + rewrite list_lookup_alter_ne by done.
      repeat case_decide; (lia || done).
Qed.

Lemma build_mask_spec (B D : nat) (len : list Z) :
  (B ≤ length len)%nat → build_mask B D len = Ok (mask_row D <$> take B len).
Proof.
  intros HB. unfold build_mask.
  destruct (mask_loop_seq B 0 len (replicate B (replicate D 0%R)))
    as (mask' & -> & Hm); [lia|].
  f_equal. apply list_eq. intros i. rewrite Hm, list_lookup_fmap.
  case_decide as Hi.
  - rewrite lookup_replicate_2, lookup_take_lt by lia.
    destruct (lookup_lt_is_Some_2 len i) as [v Hv]; [lia|]. rewrite Hv.
    rewrite (list_lookup_total_correct len i v Hv). simpl.
    by rewrite fill_prefix_zeros.
  - rewrite lookup_take_ge by lia. simpl.
    apply lookup_replicate_None. lia.
Qed.

Lemma mask_row_full (D : nat) :
  mask_row D (Z.of_nat D) = replicate D 1%R.
Proof.
  unfold mask_row, slice_index.
  destruct (Z.of_nat D <? 0) eqn:E; [apply Z.ltb_lt in E; lia|].
  rewrite Nat2Z.id, Nat.min_id, Nat.sub_diag. simpl. apply app_nil_r.
Qed.

(** The mask is built with Python slices: provided [length] has an entry
    for every row, a negative [length[i]] counts from the end of the row
    (ones in the first [max (def_max_length + length[i]) 0] positions) and a
    [length[i]] above [def_max_length] is clamped to [def_max_length]. *)
Lemma build_mask_rows
    (batch_size def_max_length : nat) (length_ : list Z) :
  (batch_size ≤ length length_)%nat →
  ∃ mask,
    build_mask batch_size def_max_length length_ = Ok mask ∧
    length mask = batch_size ∧
    ∀ (i : nat) (n : Z),
      (i < batch_size)%nat → length_ !! i = Some n →
      ∃ k : nat,
        mask !! i = Some (replicate k 1%R ++ replicate (def_max_length - k) 0%R) ∧
        (n < 0 → Z.of_nat k = Z.max (Z.of_nat def_max_length + n) 0) ∧
        (Z.of_nat def_max_length < n → k = def_max_length) ∧
        (0 <= n <= Z.of_nat def_max_length → Z.of_nat k = n).
Proof.
  intros HB. exists (mask_row def_max_length <$> take batch_size length_).
  split; [by apply build_mask_spec|]. split.
  { rewrite length_fmap, length_take. lia. }
  intros i n Hi Hn. exists (slice_index def_max_length n). split.
  - by rewrite list_lookup_fmap, lookup_take_lt, Hn by done.
  - unfold slice_index.
    destruct (n <? 0) eqn:E; [apply Z.ltb_lt in E|apply Z.ltb_ge in E]; lia.
Qed.

(** ** The sequence loss *)

Lemma Rsum_nil : Rsum [] = 0%R.
Proof. reflexivity. Qed.

Lemma Rsum_cons (x : R) (l : list R) : Rsum (x :: l) = (x + Rsum l)%R.
Proof. reflexivity. Qed.

Lemma Rsum_app (l k : list R) : Rsum (l ++ k) = (Rsum l + Rsum k)%R.
Proof.
  induction l as [|x l IH].
  - rewrite app_nil_l, Rsum_nil. lra.
  - rewrite <- app_comm_cons, !Rsum_cons, IH. lra.
Qed.

Lemma Rsum_exp_pos (x : list R) : x ≠ [] → (0 < Rsum (exp <$> x))%R.
Proof.
  assert (∀ l : list R, 0 <= Rsum (exp <$> l))%R as Hnn.
  { induction l as [|y l IH]; [rewrite fmap_nil, Rsum_nil; lra|].
    rewrite fmap_cons, Rsum_cons. pose proof (exp_pos y). lra. }
  destruct x as [|y l]; [done|]. intros _.
  rewrite fmap_cons, Rsum_cons.
  pose proof (exp_pos y). pose proof (Hnn l). lra.
Qed.

Lemma length_log_softmax (x : list R) : length (log_softmax x) = length x.
Proof. unfold log_softmax. by rewrite length_fmap. Qed.

Lemma in_range_lt (row : list R) (t : Z) :
  in_range row t → (Z.to_nat t < length row)%nat.
Proof. unfold in_range. lia. Qed.

Lemma cross_entropy_log_softmax (row : list R) (t : Z) :
  in_range row t →
  cross_entropy row t = (- (log_softmax row !!! Z.to_nat t))%R.
Proof.
  intros Ht%in_range_lt. unfold cross_entropy, softmax, log_softmax.
  rewrite !(list_lookup_total_fmap _ row (Z.to_nat t)) by done.
  assert (0 < Rsum (exp <$> row))%R as Hpos.
  { apply Rsum_exp_pos. intros ->. simpl in Ht. lia. }
  pose proof (exp_pos (row !!! Z.to_nat t)) as Hexp.
  pose proof (Rinv_0_lt_compat _ Hpos) as Hinv.
  unfold Rdiv. rewrite (ln_mult _ _ Hexp Hinv), (ln_Rinv _ Hpos), ln_exp.
  lra.
Qed.

Lemma gather_ok (input : list (list R)) (index : list Z) :
  Forall2 in_range input index →
  gather input index = Ok (zip_with (λ row t, row !!! Z.to_nat t) input index).
Proof.
  induction 1 as [|row t input index Hrt _ IH]; simpl; [done|].
  destruct (t <? 0) eqn:E; [apply Z.ltb_lt in E; unfold in_range in Hrt; lia|].
  destruct (lookup_lt_is_Some_2 row (Z.to_nat t)) as [x Hx];
    [by apply in_range_lt|].
  rewrite Hx, IH. simpl.
  by rewrite (list_lookup_total_correct row (Z.to_nat t) x Hx).
Qed.

Lemma Forall2_in_range_log_softmax (input : list (list R)) (index : list Z) :
  Forall2 in_range input index →
  Forall2 in_range (log_softmax <$> input) index.
Proof.
  intros H. apply Forall2_fmap_l. eapply Forall2_impl; [exact H|].
  intros row t Hrt. unfold compose, in_range in *.
  by rewrite length_log_softmax.
Qed.

Lemma forward_output_ok (input : list (list (list R)))
    (target : list (list Z)) (length_ : list Z) (T : Z) :
  (length target ≤ length length_)%nat →
  py_max length_ = Ok T →
  T = Z.of_nat (size1 input) →
  Forall2 in_range (concat input) (concat (slice_to T <$> target)) →
  let mask :=
    concat (slice_to T <$>
              (mask_row (size1 target) <$> take (length target) length_)) in
  forward_output input target length_ =
    Ok (zip_with (λ x m, (- x * m)%R)
          (zip_with (λ row t, log_softmax row !!! Z.to_nat t)
             (concat input) (concat (slice_to T <$> target)))
          mask,
        mask).
Proof.
  intros HB Hmax HT Hrange mask. unfold forward_output.
  rewrite build_mask_spec by done. simpl.
  rewrite Hmax. simpl.
  replace (T =? Z.of_nat (size1 input)) with true
    by (symmetry; apply Z.eqb_eq; exact HT).
  simpl.
  rewrite (gather_ok _ _ (Forall2_in_range_log_softmax _ _ Hrange)). simpl.
  by rewrite zip_with_fmap_l.
Qed.

(** C10.  Two loss modules that differ only in [weight], [size_average] or
    [ignore_index] are built alike and return the same loss on every input:
    [forward] reads none of the three. *)
Theorem forward_ignores_unused_arguments
    (weight1 weight2 : option (list R)) (size_average1 size_average2 : bool)
    (ignore_index1 ignore_index2 : Z)
    (sequence_normalize sample_normalize : bool)
    (input : list (list (list R))) (target : list (list Z))
    (length_ : list Z) :
  forward (mkSequenceCrossEntropyLoss weight1 size_average1 ignore_index1
             sequence_normalize sample_normalize) input target length_
  = forward (mkSequenceCrossEntropyLoss weight2 size_average2 ignore_index2
               sequence_normalize sample_normalize) input target length_
  ∧
  match
    SequenceCrossEntropyLoss_init weight1 size_average1 ignore_index1
      sequence_normalize sample_normalize,
    SequenceCrossEntropyLoss_init weight2 size_average2 ignore_index2
      sequence_normalize sample_normalize
  with
  | Ok loss1, Ok loss2 =>
      forward loss1 input target length_ = forward loss2 input target length_
  | Raise e1, Raise e2 => e1 = e2
  | _, _ => False
  end.
Proof.
  split; [reflexivity|].
  unfold SequenceCrossEntropyLoss_init.
  destruct sequence_normalize, sample_normalize; reflexivity.
Qed.

Lemma foldl_max_ge (l : list Z) (x : Z) :
  x <= foldl Z.max x l ∧ Forall (λ n, n <= foldl Z.max x l) l.
Proof.
  revert x. induction l as [|y l IH]; intros x; simpl; [split; [lia|done]|].
  destruct (IH (Z.max x y)) as [H1 H2].
  split; [lia|]. constructor; [lia|done].
Qed.

Lemma py_max_ge (l : list Z) (m n : Z) : py_max l = Ok m → n ∈ l → n <= m.
Proof.
  destruct l as [|x l]; [done|]. simpl. intros [= <-].
  destruct (foldl_max_ge l x) as [H1 H2].
  intros [->|Hn]%elem_of_cons; [done|].
  by apply (proj1 (Forall_forall _ _) H2).
Qed.

(** C4, as the code has it.  On a batch that is not empty, and provided
    [length] has an entry for every row, the lengths are checked by the
    assertion on [max(length)] only.  When
    the targets are at least as wide as the input, a [length[i]] above
    [def_max_length] makes the call raise [AssertionError]: [max(length)]
    then exceeds [input.size(1)].  A negative [length[i]] is not rejected:
    when [max(length)] is [input.size(1)] and the targets are class
    indices, the call returns a loss, computed with a mask whose row [i]
    has ones in its first [max (def_max_length + length[i]) 0]
    positions. *)
Theorem forward_bad_lengths (self : SequenceCrossEntropyLoss)
    (input : list (list (list R))) (target : list (list Z))
    (length_ : list Z) :
  input ≠ [] → target ≠ [] →
  (length target ≤ length length_)%nat →
  ((size1 input ≤ size1 target)%nat →
   (∃ n, n ∈ length_ ∧ Z.of_nat (size1 target) < n) →
   forward self input target length_ = Raise AssertionError) ∧
  (py_max length_ = Ok (Z.of_nat (size1 input)) →
   Forall2 in_range (concat input)
     (concat (slice_to (Z.of_nat (size1 input)) <$> target)) →
   ∃ mask loss,
     build_mask (length target) (size1 target) length_ = Ok mask ∧
     forward self input target length_ = Ok loss ∧
     ∀ (i : nat) (n : Z),
       (i < length target)%nat → length_ !! i = Some n → n < 0 →
       let k := Z.to_nat (Z.of_nat (size1 target) + n) in
       mask !! i
       = Some (replicate k 1%R ++ replicate (size1 target - k) 0%R)).
Proof.
  intros _ _ HB. split.
  - intros HT (n & Hn & Hbig). unfold forward, forward_output.
    rewrite build_mask_spec by done. cbn [mbind result_bind].
    destruct (py_max length_) as [m|e] eqn:Hmax.
    + pose proof (py_max_ge _ _ _ Hmax Hn) as Hm. cbn [mbind result_bind].
      destruct (Z.eqb_spec m (Z.of_nat (size1 input))) as [->|_]; [lia|done].
    + destruct length_; [by apply elem_of_nil in Hn|done].
  - intros Hmax Hrange.
    exists (mask_row (size1 target) <$> take (length target) length_).
    eexists. split; [by apply build_mask_spec|]. split.
    + unfold forward.
      rewrite (forward_output_ok input target length_ _ HB Hmax eq_refl Hrange).
      reflexivity.
    + intros i n Hi Hn Hneg k. subst k.
      rewrite list_lookup_fmap, lookup_take_lt, Hn by done.
      cbn [fmap option_fmap option_map]. unfold mask_row, slice_index.
      rewrite (proj2 (Z.ltb_lt _ _) Hneg).
      by replace (Z.to_nat (Z.max 0 (Z.of_nat (size1 target) + n)))
        with (Z.to_nat (Z.of_nat (size1 target) + n)) by lia.
Qed.

Lemma forward_bad_lengths_witness :
  forward default_loss [[[0]; [0]]]%R [[0; 0]] [3] = Raise AssertionError ∧
  ∃ mask loss,
    build_mask 2 2 [-1; 2] = Ok mask ∧
    forward default_loss [[[0]; [0]]; [[0]; [0]]]%R [[0; 0]; [0; 0]] [-1; 2]
    = Ok loss ∧
    mask !! 0%nat = Some [1; 0]%R.
Proof.
  split.
  - apply (forward_bad_lengths default_loss [[[0]; [0]]]%R [[0; 0]] [3]).
    + discriminate.
    + discriminate.
    + simpl. lia.
    + simpl. lia.
    + exists 3. split; [apply elem_of_cons; by left|simpl; lia].
  - destruct (forward_bad_lengths default_loss
                [[[0]; [0]]; [[0]; [0]]]%R [[0; 0]; [0; 0]] [-1; 2])
      as [_ H]; [discriminate|discriminate|simpl; lia|].
    destruct H as (mask & loss & Hm & Hl & Hrow).
    + reflexivity.
    + repeat (constructor; [unfold in_range; simpl; lia|]). constructor.
    + exists mask, loss. split; [exact Hm|]. split; [exact Hl|].
      apply (Hrow 0%nat (-1)); [simpl; lia|reflexivity|lia].
Defined.

(** A negative length next to a length that matches the input, the targets
    being as wide as the input: [forward] returns a loss. *)
Lemma forward_accepts_negative_length :
  ∃ v, forward default_loss
         [[[0]; [0]]; [[0]; [0]]]%R [[0; 0]; [0; 0]] [-1; 2] = Ok v.
Proof. eexists; reflexivity. Qed.

(** C7, as the code has it.  Batch size 2, [def_max_length] 3 and
    [length = [2, 0]]: whatever the logits of the second row are, as long
    as their log-probabilities are finite in float32, and whatever its
    target entries are, as long as the two that are gathered are class
    indices, its two terms of the elementwise [output] are exactly zero,
    and the loss is the one computed from the first row alone. *)
Theorem zero_length_row_contributes_zero (self : SequenceCrossEntropyLoss)
    (x00 x01 x10 x11 : list R) (t00 t01 t02 t10 t11 t12 : Z) :
  in_range x00 t00 → in_range x01 t01 →
  in_range x10 t10 → in_range x11 t11 →
  finite_logits x10 → finite_logits x11 →
  let input := [[x00; x01]; [x10; x11]] in
  let target := [[t00; t01; t02]; [t10; t11; t12]] in
  let a := (- (log_softmax x00 !!! Z.to_nat t00))%R in
  let b := (- (log_softmax x01 !!! Z.to_nat t01))%R in
  forward_output input target [2; 0]
    = Ok ([a; b; 0; 0]%R, [1; 1; 0; 0]%R) ∧
  forward self input target [2; 0]
    = Ok (forward_reduce self [a; b] [1; 1]%R 2).
Proof.
  intros H00 H01 H10 H11 _ _ input target a b.
  assert (forward_output input target [2; 0]
          = Ok ([a; b; 0; 0]%R, [1; 1; 0; 0]%R)) as Hout.
  { rewrite (forward_output_ok input target [2; 0] 2).
    - simpl. by rewrite !Rmult_1_r, !Rmult_0_r.
    - simpl. lia.
    - reflexivity.
    - reflexivity.
    - simpl. do 4 (constructor; [assumption|]). constructor. }
  split; [exact Hout|].
  unfold forward. rewrite Hout. simpl. f_equal.
  unfold forward_reduce.
  replace (Rsum [a; b; 0; 0]%R) with (Rsum [a; b]) by (simpl; lra).
  replace (Rsum [1; 1; 0; 0]%R) with (Rsum [1; 1]%R) by (simpl; lra).
  done.
Qed.

Ltac finite_logits_tac :=
  unfold finite_logits, float32_max;
  repeat first [apply Forall_nil_2 | apply Forall_cons_2 | split]; lra.

Lemma zero_length_row_contributes_zero_witness :
  forward default_loss
    [[[0; 0]; [0; 0]]; [[1; 2]; [3; 4]]]%R
    [[0; 1; 0]; [1; 0; 1]] [2; 0]
  = Ok (forward_reduce default_loss
          [- (log_softmax [0; 0] !!! 0%nat); - (log_softmax [0; 0] !!! 1%nat)]%R
          [1; 1]%R 2).
Proof.
  destruct (zero_length_row_contributes_zero default_loss
              [0; 0]%R [0; 0]%R [1; 2]%R [3; 4]%R 0 1 0 1 0 1)
    as [_ Hloss]; try (unfold in_range; simpl; lia); try finite_logits_tac.
  exact Hloss.
Defined.

(** A target entry of the row of length 0 that is no class index, here the
    [ignore_index] -100, makes [forward] raise although the row is masked:
    the row does not contribute zero for every value of its targets. *)
Lemma zero_length_row_bad_target_raises :
  forward default_loss
    [[[0; 0]; [0; 0]]; [[1; 2]; [3; 4]]]%R
    [[0; 1; 0]; [-100; 0; 1]] [2; 0]
  = Raise RuntimeError.
Proof. reflexivity. Qed.

Lemma py_max_replicate (B : nat) (n : Z) :
  (0 < B)%nat → py_max (replicate B n) = Ok n.
Proof.
  destruct B as [|B]; [lia|]. intros _. simpl. f_equal.
  induction B as [|B IH]; simpl; [done|]. by rewrite Z.max_id.
Qed.

Lemma slice_to_full {A} (D : nat) (l : list A) :
  length l = D → slice_to (Z.of_nat D) l = l.
Proof.
  intros Hl. rewrite slice_to_nonneg by lia. apply take_ge. lia.
Qed.

Lemma fmap_slice_to_full {A} (D : nat) (t : list (list A)) :
  Forall (λ row, length row = D) t → slice_to (Z.of_nat D) <$> t = t.
Proof.
  induction 1 as [|row t Hrow _ IH]; [done|].
  by rewrite fmap_cons, IH, slice_to_full.
Qed.

Lemma Forall2_in_range_concat (input : list (list (list R)))
    (target : list (list Z)) :
  Forall2 (Forall2 in_range) input target →
  Forall2 in_range (concat input) (concat target).
Proof.
  induction 1 as [|xs ts input target Hx _ IH]; simpl; [constructor|].
  by apply Forall2_app.
Qed.

Lemma unmasked_terms (xs : list (list R)) (ts : list Z) (D : nat) :
  Forall2 in_range xs ts → length ts = D →
  zip_with (λ x m, (- x * m)%R)
    (zip_with (λ row t, log_softmax row !!! Z.to_nat t) xs ts)
    (replicate D 1%R)
  = zip_with cross_entropy xs ts.
Proof.
  intros H. revert D.
  induction H as [|row t xs ts Hrt _ IH]; intros D HD; [done|].
  destruct D as [|D]; [done|]. simpl.
  rewrite IH by (simpl in HD; lia).
  rewrite cross_entropy_log_softmax by done. f_equal. lra.
Qed.

Lemma unmasked_sum (input : list (list (list R))) (target : list (list Z))
    (D : nat) :
  Forall2 (Forall2 in_range) input target →
  Forall (λ ts, length ts = D) target →
  Rsum (zip_with (λ x m, (- x * m)%R)
          (zip_with (λ row t, log_softmax row !!! Z.to_nat t)
             (concat input) (concat target))
          (concat (replicate (length target) (replicate D 1%R))))
  = Rsum (zip_with sequence_cross_entropy input target).
Proof.
  induction 1 as [|xs ts input target Hx Hrest IH]; intros HD; [done|].
  apply Forall_cons in HD as [Hts HD].
  cbn [concat length replicate zip_with].
  assert (length xs = length ts) as Hlen by (by eapply Forall2_length).
  rewrite (zip_with_app _ xs (concat input) ts (concat target)) by done.
  rewrite zip_with_app
    by (rewrite length_zip_with, length_replicate; lia).
  rewrite Rsum_app, Rsum_cons, IH by done.
  by rewrite (unmasked_terms xs ts D).
Qed.

(** With a mask of ones, [sample_normalize] set and [sequence_normalize]
    not, the loss is the sum over the samples of the cross-entropy of each
    sample's sequence, divided by the batch size. *)
Lemma uniform_mask_sample_mean (self : SequenceCrossEntropyLoss)
    (input : list (list (list R))) (target : list (list Z))
    (length_ : list Z) (def_max_length : nat) :
  sample_normalize self = true → sequence_normalize self = false →
  target ≠ [] →
  Forall (λ ts, length ts = def_max_length) target →
  length_ = replicate (length target) (Z.of_nat def_max_length) →
  Forall2 (Forall2 in_range) input target →
  forward self input target length_ = Ok (mean_cross_entropy input target).
Proof.
  intros Hsample Hseq Hne HD -> Hrange.
  assert (length input = length target) as HB by (by eapply Forall2_length).
  assert (size1 target = def_max_length) as Hs1.
  { destruct target as [|ts target]; [done|]. simpl.
    by apply Forall_cons in HD as [? _]. }
  assert (size1 input = def_max_length) as Hs1'.
  { destruct Hrange as [|xs ts input target Hx _]; [done|]. simpl.
    apply Forall_cons in HD as [<- _]. by eapply Forall2_length. }
  unfold forward.
  rewrite (forward_output_ok input target _ (Z.of_nat def_max_length)).
  - simpl. f_equal. unfold forward_reduce, mean_cross_entropy.
    rewrite Hsample, Hseq, HB, Hs1.
    rewrite fmap_slice_to_full by done.
    rewrite take_ge by (rewrite length_replicate; lia).
    rewrite fmap_replicate, mask_row_full, fmap_replicate.
    rewrite slice_to_full by apply length_replicate.
    by rewrite unmasked_sum.
  - rewrite length_replicate. lia.
  - apply py_max_replicate. destruct target; [done|simpl; lia].
  - by rewrite Hs1'.
  - rewrite fmap_slice_to_full by done. by apply Forall2_in_range_concat.
Qed.

Lemma Rsum_sequence_cross_entropy (input : list (list (list R)))
    (target : list (list Z)) :
  Forall2 (Forall2 in_range) input target →
  Rsum (zip_with sequence_cross_entropy input target)
  = Rsum (zip_with cross_entropy (concat input) (concat target)).
Proof.
  induction 1 as [|xs ts input target Hx _ IH]; [done|].
  cbn [zip_with concat]. rewrite Rsum_cons, IH.
  rewrite zip_with_app by (by eapply Forall2_length).
  by rewrite Rsum_app.
Qed.

Lemma length_concat_uniform {A} (D : nat) (t : list (list A)) :
  Forall (λ ts, length ts = D) t → length (concat t) = (length t * D)%nat.
Proof.
  induction 1 as [|ts t Hts _ IH]; [done|].
  cbn [concat length]. rewrite length_app, IH, Hts. lia.
Qed.

(** C8, as the code has it.  When every [length[i]] equals
    [def_max_length] (the mask is all ones), [sample_normalize] is set and
    [sequence_normalize] is not, the loss is [def_max_length] times the
    standard mean cross-entropy of the logits against the targets: the sum
    of the cross-entropies of all positions is divided by the batch size,
    not by the number of positions. *)
Theorem uniform_mask_is_scaled_mean_cross_entropy
    (self : SequenceCrossEntropyLoss)
    (input : list (list (list R))) (target : list (list Z))
    (length_ : list Z) (def_max_length : nat) :
  sample_normalize self = true → sequence_normalize self = false →
  target ≠ [] → (0 < def_max_length)%nat →
  Forall (λ ts, length ts = def_max_length) target →
  length_ = replicate (length target) (Z.of_nat def_max_length) →
  Forall2 (Forall2 in_range) input target →
  forward self input target length_
  = Ok (INR def_max_length * standard_mean_cross_entropy input target)%R.
Proof.
  intros Hsample Hseq Hne HDpos HD Hlen Hrange.
  rewrite (uniform_mask_sample_mean self input target length_ def_max_length)
    by done.
  f_equal. unfold mean_cross_entropy, standard_mean_cross_entropy.
  rewrite Rsum_sequence_cross_entropy by done.
  rewrite (length_concat_uniform def_max_length) by done.
  rewrite (Forall2_length _ _ _ Hrange), mult_INR.
  assert (0 < INR (length target))%R.
  { apply lt_0_INR. destruct target; [done|simpl; lia]. }
  assert (0 < INR def_max_length)%R by (by apply lt_0_INR).
  field. split; lra.
Qed.

Lemma uniform_mask_is_scaled_mean_cross_entropy_witness :
  forward default_loss [[[0; 0]; [0; 0]]; [[1; 2]; [3; 4]]]%R
    [[0; 1]; [1; 0]] [2; 2]
  = Ok (INR 2 * standard_mean_cross_entropy
                  [[[0; 0]; [0; 0]]; [[1; 2]; [3; 4]]]%R
                  [[0; 1]; [1; 0]]%Z)%R.
Proof.
  apply (uniform_mask_is_scaled_mean_cross_entropy default_loss _ _ _ 2).
  - reflexivity.
  - reflexivity.
  - discriminate.
  - lia.
  - repeat constructor.
  - reflexivity.
  - repeat (constructor; [repeat (constructor; [unfold in_range; simpl; lia|]);
                          constructor|]).
    constructor.
Defined.

Lemma cross_entropy_uniform_2 (t : Z) :
  in_range [0; 0]%R t → cross_entropy [0; 0]%R t = ln 2.
Proof.
  intros Ht. unfold cross_entropy, softmax.
  rewrite (list_lookup_total_fmap _ [0; 0]%R (Z.to_nat t))
    by (by apply in_range_lt).
  assert ([0; 0]%R !!! Z.to_nat t = 0%R) as ->.
  { by destruct (Z.to_nat t) as [|[|n]]. }
  simpl. rewrite exp_0.
  replace (1 / (1 + (1 + 0)))%R with (/ 2)%R by lra.
  rewrite ln_Rinv by lra. lra.
Qed.

(** The mean is taken over the samples of the batch, not over the positions:
    one sample of two time steps with uniform logits over two classes has
    loss [2 * ln 2], twice the cross-entropy of a single position. *)
Remark mean_cross_entropy_sums_time_steps :
  mean_cross_entropy [[[0; 0]; [0; 0]]]%R [[0; 1]] = (2 * ln 2)%R ∧
  cross_entropy [0; 0]%R 0 = ln 2.
Proof.
  split; [|apply cross_entropy_uniform_2; unfold in_range; simpl; lia].
  unfold mean_cross_entropy, sequence_cross_entropy. simpl.
  rewrite !cross_entropy_uniform_2 by (unfold in_range; simpl; lia). lra.
Qed.

(** One sample of two time steps with uniform logits over two classes and a
    mask of ones: the loss is [2 * ln 2], the standard mean cross-entropy
    is [ln 2]. *)
Lemma uniform_mask_not_standard_mean :
  forward default_loss [[[0; 0]; [0; 0]]]%R [[0; 1]] [2] = Ok (2 * ln 2)%R ∧
  standard_mean_cross_entropy [[[0; 0]; [0; 0]]]%R [[0; 1]] = ln 2 ∧
  (2 * ln 2)%R ≠ ln 2.
Proof.
  split; [|split].
  - rewrite (uniform_mask_sample_mean default_loss _ _ _ 2);
      [|reflexivity|reflexivity|discriminate|repeat constructor|reflexivity|].
    + f_equal. unfold mean_cross_entropy, sequence_cross_entropy. simpl.
      rewrite !cross_entropy_uniform_2 by (unfold in_range; simpl; lia). lra.
    + repeat (constructor;
              [repeat (constructor; [unfold in_range; simpl; lia|]);
               constructor|]).
      constructor.
  - unfold standard_mean_cross_entropy. simpl.
    rewrite !cross_entropy_uniform_2 by (unfold in_range; simpl; lia). lra.
  - pose proof ln_lt_2. lra.
Qed.

(** The width is the ceiling of the double-precision quotient: for a 1 by 49
    (h by w) image and target height 32 the quotient [32 / (1 / 49)] rounds
    to a double just above 1568, and the new width is 1569. *)
Remark FixedHeightResize_rounds_in_binary64 :
  FixedHeightResize_call 32 (mkImage 49 1) = Ok (mkImage 1569 32).
Proof. by vm_compute. Qed.

(** ** The masked loss of a well-formed batch *)
Lemma Rsum_replicate_0 (n : nat) : Rsum (replicate n 0%R) = 0%R.
Proof.
  induction n as [|n IH]; [done|].
  cbn [replicate]. rewrite Rsum_cons, IH. lra.
Qed.

Lemma Rsum_replicate_1 (n : nat) : Rsum (replicate n 1%R) = INR n.
Proof.
  induction n as [|n IH]; [done|].
  rewrite S_INR. cbn [replicate]. rewrite Rsum_cons, IH. lra.
Qed.

Lemma masked_terms_sum (G : list R) (n : nat) :
  (n ≤ length G)%nat →
  Rsum (zip_with (λ x m, (- x * m)%R) G
          (replicate n 1%R ++ replicate (length G - n) 0%R))
  = Rsum (Ropp <$> take n G).
Proof.
  revert n. induction G as [|x G IH]; intros n Hn.
  - simpl in Hn. by replace n with O by lia.
  - destruct n as [|n].
    + specialize (IH O ltac:(lia)).
      rewrite Nat.sub_0_r, take_0, fmap_nil, Rsum_nil in IH.
      cbn [replicate app] in IH.
      rewrite take_0, fmap_nil, Rsum_nil.
      cbn [replicate app length Nat.sub zip_with].
      rewrite Rsum_cons, IH. lra.
    + specialize (IH n ltac:(simpl in Hn; lia)).
      rewrite firstn_cons, fmap_cons.
      cbn [replicate app length Nat.sub zip_with].
      rewrite !Rsum_cons, IH. lra.
Qed.

Lemma slice_to_mask_row (T D : nat) (n : Z) :
  (T ≤ D)%nat → 0 <= n <= Z.of_nat T →
  slice_to (Z.of_nat T) (mask_row D n)
  = replicate (Z.to_nat n) 1%R ++ replicate (T - Z.to_nat n) 0%R.
Proof.
  intros HT Hn. rewrite slice_to_nonneg by lia. rewrite Nat2Z.id.
  unfold mask_row, slice_index.
  destruct (n <? 0) eqn:E; [apply Z.ltb_lt in E; lia|].
  replace (Z.to_nat n `min` D)%nat with (Z.to_nat n) by lia.
  rewrite take_app, !take_replicate, length_replicate.
  f_equal; f_equal; lia.
Qed.

Lemma zip_with_cross_entropy (xs : list (list R)) (ts : list Z) :
  Forall2 in_range xs ts →
  zip_with cross_entropy xs ts
  = Ropp <$> zip_with (λ row t, log_softmax row !!! Z.to_nat t) xs ts.
Proof.
  induction 1 as [|row t xs ts Hrt _ IH]; [done|]. simpl.
  by rewrite IH, cross_entropy_log_softmax.
Qed.

Lemma sample_terms (T D : nat) (xs : list (list R)) (ts : list Z) (n : Z) :
  (T ≤ D)%nat → sample_ok T D xs ts n →
  Rsum (zip_with (λ x m, (- x * m)%R)
          (zip_with (λ row t, log_softmax row !!! Z.to_nat t)
             xs (slice_to (Z.of_nat T) ts))
          (slice_to (Z.of_nat T) (mask_row D n)))
  = masked_sequence_cross_entropy xs ts n.
Proof.
  intros HT (Hxs & Hts & Hn & Hrange).
  rewrite slice_to_mask_row by done.
  rewrite slice_to_nonneg, Nat2Z.id by lia.
  set (G := zip_with (λ row t, log_softmax row !!! Z.to_nat t) xs (take T ts)).
  assert (length G = T) as HG.
  { unfold G. rewrite length_zip_with, length_take. lia. }
  rewrite <- HG at 1. rewrite masked_terms_sum by lia.
  unfold masked_sequence_cross_entropy. rewrite fmap_take. unfold G.
  rewrite <- zip_with_cross_entropy by done.
  f_equal. f_equal. rewrite <- Hxs. apply zip_with_take_r. 
Qed.

Lemma Rsum_slice_to_mask_row (T D : nat) (n : Z) :
  (T ≤ D)%nat → 0 <= n <= Z.of_nat T →
  Rsum (slice_to (Z.of_nat T) (mask_row D n)) = IZR n.
Proof.
  intros HT Hn. rewrite slice_to_mask_row by done.
  rewrite Rsum_app, Rsum_replicate_1, Rsum_replicate_0, INR_IZR_INZ.
  rewrite Z2Nat.id by lia. lra.
Qed.

Lemma Zsum_cons (n : Z) (l : list Z) : Zsum (n :: l) = n + Zsum l.
Proof. reflexivity. Qed.

Lemma batch_in_range (T D : nat) (input : list (list (list R)))
    (target : list (list Z)) (length_ : list Z) :
  Forall3 (sample_ok T D) input target length_ →
  Forall2 in_range (concat input) (concat (slice_to (Z.of_nat T) <$> target)).
Proof.
  induction 1 as [|xs ts n input target length_ (_ & _ & _ & Hr) _ IH];
    [constructor|].
  rewrite fmap_cons. cbn [concat]. apply Forall2_app; [|done].
  by rewrite slice_to_nonneg, Nat2Z.id by lia.
Qed.

Lemma batch_terms (T D : nat) (input : list (list (list R)))
    (target : list (list Z)) (length_ : list Z) :
  (T ≤ D)%nat →
  Forall3 (sample_ok T D) input target length_ →
  Rsum (zip_with (λ x m, (- x * m)%R)
          (zip_with (λ row t, log_softmax row !!! Z.to_nat t)
             (concat input) (concat (slice_to (Z.of_nat T) <$> target)))
          (concat (slice_to (Z.of_nat T) <$> (mask_row D <$> length_))))
  = masked_total input target length_
  ∧ Rsum (concat (slice_to (Z.of_nat T) <$> (mask_row D <$> length_)))
    = IZR (Zsum length_).
Proof.
  intros HT.
  induction 1 as [|xs ts n input target length_ Hs _ [IH1 IH2]]; [done|].
  rewrite !fmap_cons. cbn [concat]. unfold masked_total.
  cbn [zip_with]. fold (masked_total input target length_).
  pose proof Hs as (Hxs & Hts & Hn & Hr).
  assert (length (slice_to (Z.of_nat T) ts) = T) as Hlt.
  { rewrite slice_to_nonneg, Nat2Z.id, length_take by lia. lia. }
  assert (length (slice_to (Z.of_nat T) (mask_row D n)) = T) as Hlm.
  { rewrite slice_to_mask_row, length_app, !length_replicate by done. lia. }
  rewrite (zip_with_app _ xs (concat input)) by lia.
  rewrite zip_with_app by (rewrite length_zip_with; lia).
  rewrite !Rsum_app, Rsum_cons, IH1, IH2, Zsum_cons, plus_IZR.
  rewrite sample_terms, Rsum_slice_to_mask_row by done. done.
Qed.

Lemma forward_masked_total (self : SequenceCrossEntropyLoss)
    (input : list (list (list R))) (target : list (list Z))
    (length_ : list Z) (T D : nat) :
  (T ≤ D)%nat →
  py_max length_ = Ok (Z.of_nat T) →
  Forall3 (sample_ok T D) input target length_ →
  forward self input target length_
  = Ok (let total := masked_total input target length_ in
        let total :=
          if sequence_normalize self then (total / IZR (Zsum length_))%R
          else total in
        if sample_normalize self then (total / INR (length target))%R
        else total).
Proof.
  intros HT Hmax H3.
  assert (length target = length length_) as HB.
  { rewrite <- (Forall3_length_lm _ _ _ _ H3). by eapply Forall3_length_lr. }
  assert (size1 input = T ∧ size1 target = D) as [Hs1 Hs2].
  { destruct H3 as [|xs ts n input target length_ (Hxs & Hts & _) _];
      [discriminate|done]. }
  pose proof (batch_terms T D input target length_ HT H3) as [Hsum Hmask].
  unfold forward.
  rewrite (forward_output_ok input target length_ (Z.of_nat T)).
  - simpl. rewrite Hs2, HB, firstn_all. unfold forward_reduce.
    by rewrite Hsum, Hmask.
  - lia.
  - done.
  - by rewrite Hs1.
  - by eapply batch_in_range.
Qed.

(** *** The loss is not negative *)
Lemma exp_le_Rsum_exp (row : list R) (i : nat) (x : R) :
  row !! i = Some x → (exp x <= Rsum (exp <$> row))%R.
Proof.
  assert (∀ l : list R, 0 <= Rsum (exp <$> l))%R as Hnn.
  { induction l as [|y l IH]; [rewrite fmap_nil, Rsum_nil; lra|].
    rewrite fmap_cons, Rsum_cons. pose proof (exp_pos y). lra. }
  revert i. induction row as [|y row IH]; intros i Hi; [done|].
  rewrite fmap_cons, Rsum_cons. destruct i as [|i]; simpl in Hi.
  - injection Hi as ->. pose proof (Hnn row). lra.
  - specialize (IH i Hi). pose proof (exp_pos y). lra.
Qed.

Lemma cross_entropy_nonneg (row : list R) (t : Z) :
  in_range row t → (0 <= cross_entropy row t)%R.
Proof.
  intros Ht. rewrite cross_entropy_log_softmax by done.
  pose proof (in_range_lt _ _ Ht) as Hlt.
  unfold log_softmax.
  rewrite (list_lookup_total_fmap _ row (Z.to_nat t)) by done.
  destruct (lookup_lt_is_Some_2 row (Z.to_nat t) Hlt) as [x Hx].
  rewrite (list_lookup_total_correct row (Z.to_nat t) x Hx).
  pose proof (exp_le_Rsum_exp row _ x Hx) as Hle.
  pose proof (exp_pos x) as Hpos.
  assert (x <= ln (Rsum (exp <$> row)))%R; [|lra].
  rewrite <- (ln_exp x) at 1.
  destruct Hle as [Hlt'|Heq].
  - left. by apply ln_increasing.
  - right. by rewrite Heq.
Qed.

Lemma Rsum_nonneg (l : list R) : Forall (λ x, 0 <= x)%R l → (0 <= Rsum l)%R.
Proof.
  induction 1 as [|x l Hx _ IH]; [rewrite Rsum_nil; lra|].
  rewrite Rsum_cons. lra.
Qed.

Lemma masked_sequence_cross_entropy_nonneg (T D : nat)
    (xs : list (list R)) (ts : list Z) (n : Z) :
  sample_ok T D xs ts n → (0 <= masked_sequence_cross_entropy xs ts n)%R.
Proof.
  intros (Hxs & Hts & Hn & Hr). unfold masked_sequence_cross_entropy.
  apply Rsum_nonneg, Forall_take.
  rewrite <- Hxs in Hr. rewrite <- (zip_with_take_r _ xs ts).
  generalize dependent (take (length xs) ts). intros ts' Hr.
  clear Hxs Hn.
  induction Hr as [|row t xs' ts'' Hrt _ IH]; [constructor|].
  cbn [zip_with]. constructor; [by apply cross_entropy_nonneg|done].
Qed.

Lemma masked_total_nonneg (T D : nat) (input : list (list (list R)))
    (target : list (list Z)) (length_ : list Z) :
  Forall3 (sample_ok T D) input target length_ →
  (0 <= masked_total input target length_)%R.
Proof.
  induction 1 as [|xs ts n input target length_ Hs _ IH];
    [unfold masked_total; simpl; lra|].
  unfold masked_total. cbn [zip_with]. rewrite Rsum_cons.
  fold (masked_total input target length_).
  pose proof (masked_sequence_cross_entropy_nonneg _ _ _ _ _ Hs). lra.
Qed.

Lemma py_max_elem_of (l : list Z) (m : Z) : py_max l = Ok m → m ∈ l.
Proof.
  destruct l as [|x l]; [done|]. simpl. intros [= <-].
  revert x. induction l as [|y l IH]; intros x; simpl; [set_solver|].
  specialize (IH (Z.max x y)).
  apply elem_of_cons in IH as [IH|IH].
  - rewrite IH. destruct (Z.max_spec x y) as [[_ ->]|[_ ->]]; set_solver.
  - set_solver.
Qed.

Lemma Zsum_elem_of_le (l : list Z) (m : Z) :
  Forall (λ n, 0 <= n) l → m ∈ l → m <= Zsum l.
Proof.
  induction 1 as [|x l Hx Hl IH]; [set_solver|].
  assert (0 <= Zsum l).
  { clear IH. induction Hl as [|y l Hy _ IH]; [done|].
    rewrite Zsum_cons. cbv beta in Hy. lia. }
  cbv beta in Hx.
  rewrite Zsum_cons. intros [->|Hm]%elem_of_cons; [lia|].
  specialize (IH Hm). lia.
Qed.

(** X3.  On a well-formed batch with at least one time step, whose logits
    have finite log-probabilities in float32, the loss is a non-negative
    number, with either normalisation or none. *)
Theorem masked_loss_nonneg (self : SequenceCrossEntropyLoss)
    (input : list (list (list R))) (target : list (list Z))
    (length_ : list Z) (T D : nat) :
  (0 < T ≤ D)%nat →
  py_max length_ = Ok (Z.of_nat T) →
  Forall3 (sample_ok T D) input target length_ →
  Forall (Forall finite_logits) input →
  ∃ loss, forward self input target length_ = Ok loss ∧ (0 <= loss)%R.
Proof.
  intros HT Hmax H3 _. eexists.
  split; [apply (forward_masked_total self input target length_ T D);
          [lia|done|done]|].
  pose proof (masked_total_nonneg _ _ _ _ _ H3) as Htot.
  assert (0 < IZR (Zsum length_))%R as Hden.
  { apply IZR_lt.
    assert (Z.of_nat T <= Zsum length_); [|lia].
    apply Zsum_elem_of_le; [|by apply py_max_elem_of].
    clear Hmax Htot.
    induction H3 as [|xs ts n ? ? ? (_ & _ & Hn & _) _ IH]; [constructor|].
    constructor; [lia|done]. }
  assert (0 < INR (length target))%R as HB.
  { apply lt_0_INR. destruct H3; [discriminate|simpl; lia]. }
  simpl. destruct (sequence_normalize self), (sample_normalize self).
  - apply Rmult_le_pos; [apply Rmult_le_pos|]; try done;
      left; by apply Rinv_0_lt_compat.
  - apply Rmult_le_pos; [done|]. left; by apply Rinv_0_lt_compat.
  - apply Rmult_le_pos; [done|]. left; by apply Rinv_0_lt_compat.
  - done.
Qed.

(** *** Masked positions *)
Lemma masked_total_truncate (input : list (list (list R)))
    (target : list (list Z)) (length_ : list Z) :
  length input = length length_ → length target = length length_ →
  masked_total input target length_
  = Rsum (zip_with sequence_cross_entropy
            (truncate_rows length_ input) (truncate_rows length_ target)).
Proof.
  revert input target.
  induction length_ as [|n length_ IH]; intros input target Hi Ht.
  - destruct input; [|done]. by destruct target.
  - destruct input as [|xs input]; [done|]. destruct target as [|ts target]; [done|].
    unfold masked_total, truncate_rows. cbn [zip_with]. rewrite !Rsum_cons.
    fold (masked_total input target length_).
    fold (truncate_rows length_ input). fold (truncate_rows length_ target).
    rewrite IH by (simpl in *; lia).
    f_equal. unfold masked_sequence_cross_entropy, sequence_cross_entropy.
    by rewrite zip_with_take.
Qed.

(** X2.  Two well-formed batches with the same lengths that agree on the first
    [length[i]] rows of logits and the first [length[i]] targets of every
    sample have the same loss: what stands at the masked positions, logits
    (with finite log-probabilities in float32) or targets (class indices),
    does not reach the result. *)
Theorem masked_positions_irrelevant (self : SequenceCrossEntropyLoss)
    (input input' : list (list (list R))) (target target' : list (list Z))
    (length_ : list Z) (T D : nat) :
  (T ≤ D)%nat →
  py_max length_ = Ok (Z.of_nat T) →
  Forall3 (sample_ok T D) input target length_ →
  Forall3 (sample_ok T D) input' target' length_ →
  Forall (Forall finite_logits) input →
  Forall (Forall finite_logits) input' →
  truncate_rows length_ input = truncate_rows length_ input' →
  truncate_rows length_ target = truncate_rows length_ target' →
  forward self input target length_ = forward self input' target' length_.
Proof.
  intros HT Hmax H3 H3' _ _ Hin Htg.
  rewrite (forward_masked_total self input target length_ T D) by done.
  rewrite (forward_masked_total self input' target' length_ T D) by done.
  pose proof (Forall3_length_lr _ _ _ _ H3) as L1.
  pose proof (Forall3_length_lm _ _ _ _ H3) as L2.
  pose proof (Forall3_length_lr _ _ _ _ H3') as L1'.
  pose proof (Forall3_length_lm _ _ _ _ H3') as L2'.
  rewrite !masked_total_truncate by lia.
  assert (length target = length target') as -> by lia.
  by rewrite Hin, Htg.
Qed.

(** *** The errors of [forward] *)
Lemma mask_loop_short (n k : nat) (len : list Z) (mask : list (list R)) :
  (k ≤ length len < k + n)%nat →
  mask_loop (seq k n) len mask = Raise IndexError.
Proof.
  revert k mask. induction n as [|n IH]; intros k mask Hk; [lia|]. simpl.
  destruct (len !! k) as [v|] eqn:Hv; [|done].
  apply IH. apply lookup_lt_Some in Hv. lia.
Qed.

(** X4.  [forward] raises [IndexError] when [length] has fewer entries than the
    batch has rows, [ValueError] (from [max]) when the batch and [length]
    are empty, and [AssertionError] when [max(length)] differs from
    [input.size(1)]. *)
Theorem forward_checks (self : SequenceCrossEntropyLoss)
    (input : list (list (list R))) (target : list (list Z))
    (length_ : list Z) :
  ((length length_ < length target)%nat →
   forward self input target length_ = Raise IndexError) ∧
  (length_ = [] → target = [] →
   forward self input target length_ = Raise ValueError) ∧
  (∀ max_length,
     (length target ≤ length length_)%nat →
     py_max length_ = Ok max_length →
     max_length ≠ Z.of_nat (size1 input) →
     forward self input target length_ = Raise AssertionError).
Proof.
  split; [|split].
  - intros Hlen. unfold forward, forward_output, build_mask.
    by rewrite mask_loop_short by lia.
  - by intros -> ->.
  - intros m HB Hmax Hne. unfold forward, forward_output.
    rewrite build_mask_spec by done. simpl. rewrite Hmax. simpl.
    by destruct (Z.eqb_spec m (Z.of_nat (size1 input))).
Qed.

Lemma gather_out_of_range (input : list (list R)) (index : list Z)
    (k : nat) (row : list R) (t : Z) :
  input !! k = Some row → index !! k = Some t → ¬ in_range row t →
  gather input index = Raise RuntimeError.
Proof.
  revert input k. induction index as [|t0 index IH]; intros input k Hi Ht Hn;
    [done|].
  destruct input as [|row0 input]; [done|]. simpl.
  destruct (t0 <? 0) eqn:E; [done|]. apply Z.ltb_ge in E.
  destruct (row0 !! Z.to_nat t0) as [x|] eqn:Hx; [|done].
  destruct k as [|k]; simpl in Hi, Ht.
  - injection Hi as ->. injection Ht as ->. exfalso. apply Hn.
    apply lookup_lt_Some in Hx. unfold in_range. lia.
  - by rewrite (IH input k).
Qed.

(** X5.  When [max(length)] is [input.size(1)], a target entry among the first
    [max(length)] of some sample that is no class index of its row of
    logits (negative, as the [ignore_index] -100, or too large) makes
    [forward] raise [RuntimeError], at a masked position too: the mask is
    applied after [gather], and [ignore_index] is never read. *)
Theorem out_of_range_target_raises (self : SequenceCrossEntropyLoss)
    (input : list (list (list R))) (target : list (list Z))
    (length_ : list Z) (k : nat) (row : list R) (t : Z) :
  (length target ≤ length length_)%nat →
  py_max length_ = Ok (Z.of_nat (size1 input)) →
  concat input !! k = Some row →
  concat (slice_to (Z.of_nat (size1 input)) <$> target) !! k = Some t →
  ¬ in_range row t →
  forward self input target length_ = Raise RuntimeError.
Proof.
  intros HB Hmax Hrow Ht Hn. unfold forward, forward_output.
  rewrite build_mask_spec by done. simpl. rewrite Hmax. simpl.
  rewrite Z.eqb_refl. simpl.
  rewrite (gather_out_of_range _ _ k (log_softmax row) t); [done| |done|].
  - by rewrite list_lookup_fmap, Hrow.
  - unfold in_range in *. by rewrite length_log_softmax.
Qed.

(** *** The mask *)
(** X6.  For lengths between 0 and [def_max_length] the mask has one row of
    [def_max_length] entries for each of the [batch_size] samples, every
    entry is 0 or 1, and row [i] sums to [length[i]]. *)
Theorem mask_rows_sum_to_lengths (batch_size def_max_length : nat)
    (length_ : list Z) :
  (batch_size ≤ length length_)%nat →
  Forall (λ n, 0 <= n <= Z.of_nat def_max_length) (take batch_size length_) →
  ∃ mask,
    build_mask batch_size def_max_length length_ = Ok mask ∧
    Rsum <$> mask = IZR <$> take batch_size length_ ∧
    Forall (λ row, length row = def_max_length ∧
                   Forall (λ m, m = 0%R ∨ m = 1%R) row) mask.
Proof.
  intros HB Hlen. eexists. split; [by apply build_mask_spec|].
  induction Hlen as [|n l Hn _ [IH1 IH2]]; [done|].
  rewrite !fmap_cons. split; [f_equal; [|done]|constructor; [|done]].
  - unfold mask_row, slice_index.
    destruct (n <? 0) eqn:E; [apply Z.ltb_lt in E; lia|].
    rewrite Rsum_app, Rsum_replicate_1, Rsum_replicate_0, INR_IZR_INZ.
    replace (Z.of_nat (Z.to_nat n `min` def_max_length)) with n by lia. lra.
  - unfold mask_row. split.
    + rewrite length_app, !length_replicate. unfold slice_index.
      destruct (n <? 0) eqn:E; [apply Z.ltb_lt in E|]; lia.
    + apply Forall_app. split; apply Forall_replicate; auto.
Qed.

(** *** Construction and normalisation *)
(** X7.  [__init__] raises [AssertionError] exactly when both
    [sequence_normalize] and [sample_normalize] are set; a loss that was
    constructed therefore divides the summed output once at most: by the
    sum of the mask with [sequence_normalize], by the batch size with
    [sample_normalize], and not at all with neither. *)
Theorem init_normalisation (weight : option (list R)) (size_average : bool)
    (ignore_index : Z) (sequence_normalize sample_normalize : bool) :
  (sequence_normalize = true ∧ sample_normalize = true →
   SequenceCrossEntropyLoss_init weight size_average ignore_index
     sequence_normalize sample_normalize = Raise AssertionError) ∧
  (¬ (sequence_normalize = true ∧ sample_normalize = true) →
   ∃ self,
     SequenceCrossEntropyLoss_init weight size_average ignore_index
       sequence_normalize sample_normalize = Ok self ∧
     ∀ output mask batch_size,
       forward_reduce self output mask batch_size
       = if sequence_normalize then (Rsum output / Rsum mask)%R
         else if sample_normalize then (Rsum output / INR batch_size)%R
         else Rsum output).
Proof.
  unfold SequenceCrossEntropyLoss_init.
  destruct sequence_normalize, sample_normalize; split;
    try (intros [? ?]; done); try done; intros Hn.
  - exfalso. by apply Hn.
  - by eexists.
  - by eexists.
  - by eexists.
Qed.

(** *** Targets shorter than the input *)
(** X8.  When the targets have fewer columns than the input has time steps
    (here one column, two time steps, two samples of length 2), [forward]
    raises nothing: the flattened targets are paired with the first rows of
    the flattened logits, so the target of the second sample is scored
    against the second time step of the first sample, and the logits of
    the second sample are not read. *)
Theorem short_target_misaligns (self : SequenceCrossEntropyLoss)
    (x00 x01 x10 x11 : list R) (t0 t1 : Z) :
  in_range x00 t0 → in_range x01 t1 →
  forward self [[x00; x01]; [x10; x11]] [[t0]; [t1]] [2; 2]
  = Ok (forward_reduce self
          [cross_entropy x00 t0; cross_entropy x01 t1] [1; 1]%R 2).
Proof.
  intros H0 H1. unfold forward, forward_output. simpl.
  destruct (t0 <? 0) eqn:E0; [apply Z.ltb_lt in E0; unfold in_range in H0; lia|].
  destruct (t1 <? 0) eqn:E1; [apply Z.ltb_lt in E1; unfold in_range in H1; lia|].
  destruct (lookup_lt_is_Some_2 (log_softmax x00) (Z.to_nat t0)) as [a Ha];
    [rewrite length_log_softmax; by apply in_range_lt|].
  destruct (lookup_lt_is_Some_2 (log_softmax x01) (Z.to_nat t1)) as [b Hb];
    [rewrite length_log_softmax; by apply in_range_lt|].
  rewrite Ha, Hb. simpl. do 2 f_equal.
  rewrite !cross_entropy_log_softmax by done.
  rewrite (list_lookup_total_correct _ _ a Ha).
  rewrite (list_lookup_total_correct _ _ b Hb).
  f_equal; [lra|]. f_equal. lra.
Qed.

(** *** The value of the loss *)
(** X1.  On a batch whose samples all have [T] rows of logits and [D] >= [T]
    target entries, whose lengths lie between 0 and [T] with maximum [T],
    whose logits have finite log-probabilities in float32 and
    whose first [T] targets of every sample are class indices, [forward]
    returns the sum over the samples of the cross-entropies of their first
    [length[i]] positions, divided by the sum of the lengths when
    [sequence_normalize] is set and by the batch size when
    [sample_normalize] is set. *)
Theorem masked_loss_formula (self : SequenceCrossEntropyLoss)
    (input : list (list (list R))) (target : list (list Z))
    (length_ : list Z) (T D : nat) :
  (T ≤ D)%nat →
  py_max length_ = Ok (Z.of_nat T) →
  Forall3 (sample_ok T D) input target length_ →
  Forall (Forall finite_logits) input →
  forward self input target length_
  = Ok (let total := masked_total input target length_ in
        let total :=
          if sequence_normalize self then (total / IZR (Zsum length_))%R
          else total in
        if sample_normalize self then (total / INR (length target))%R
        else total).
Proof.
  intros HT Hmax H3 _.
  assert (length target = length length_) as HB.
  { rewrite <- (Forall3_length_lm _ _ _ _ H3). by eapply Forall3_length_lr. }
  assert (size1 input = T ∧ size1 target = D) as [Hs1 Hs2].
  { destruct H3 as [|xs ts n input target length_ (Hxs & Hts & _) _];
      [discriminate|done]. }
  pose proof (batch_terms T D input target length_ HT H3) as [Hsum Hmask].
  unfold forward.
  rewrite (forward_output_ok input target length_ (Z.of_nat T));
    [|lia|done|by rewrite Hs1|by eapply batch_in_range].
  simpl. rewrite Hs2, HB, firstn_all. unfold forward_reduce.
  by rewrite Hsum, Hmask.
Qed.

(** *** Instances on a batch of two samples *)
Ltac sample_ok_tac := repeat constructor; unfold in_range; simpl; lia.

Lemma masked_loss_formula_witness :
  forward default_loss example_input example_target example_length
  = Ok (masked_total example_input example_target example_length
        / INR (length example_target))%R.
Proof.
  apply (masked_loss_formula default_loss example_input example_target
           example_length 2 3);
    [lia|reflexivity|sample_ok_tac|finite_logits_tac].
Defined.

Lemma masked_loss_nonneg_witness :
  ∃ loss,
    forward default_loss example_input example_target example_length
    = Ok loss ∧ (0 <= loss)%R.
Proof.
  apply (masked_loss_nonneg default_loss example_input example_target
           example_length 2 3);
    [lia|reflexivity|sample_ok_tac|finite_logits_tac].
Defined.

Lemma masked_positions_irrelevant_witness :
  forward default_loss example_input example_target example_length
  = forward default_loss example_input_2 example_target_2 example_length.
Proof.
  apply (masked_positions_irrelevant default_loss example_input
           example_input_2 example_target example_target_2 example_length
           2 3);
    [lia|reflexivity|sample_ok_tac|sample_ok_tac
    |finite_logits_tac|finite_logits_tac|reflexivity|reflexivity].
Defined.

Lemma forward_checks_witness :
  forward default_loss example_input example_target [2]
  = Raise IndexError ∧
  forward default_loss [] [] [] = Raise ValueError ∧
  forward default_loss example_input example_target [1; 1]
  = Raise AssertionError.
Proof.
  split; [|split].
  - apply (forward_checks default_loss example_input example_target [2]).
    simpl. lia.
  - apply (forward_checks default_loss [] [] []); reflexivity.
  - apply (forward_checks default_loss example_input example_target [1; 1])
      with (max_length := 1); [simpl; lia|reflexivity|simpl; lia].
Defined.

Lemma out_of_range_target_raises_witness :
  forward default_loss example_input [[0; 1; 0]; [1; -100; 1]] example_length
  = Raise RuntimeError.
Proof.
  apply (out_of_range_target_raises default_loss example_input
           [[0; 1; 0]; [1; -100; 1]] example_length 3 [3; 4]%R (-100)).
  - simpl. lia.
  - reflexivity.
  - reflexivity.
  - reflexivity.
  - unfold in_range. lia.
Defined.

Lemma mask_rows_sum_to_lengths_witness :
  ∃ mask,
    build_mask 2 3 example_length = Ok mask ∧
    Rsum <$> mask = IZR <$> take 2 example_length.
Proof.
  destruct (mask_rows_sum_to_lengths 2 3 example_length)
    as (mask & Hm & Hs & _).
  - simpl. lia.
  - repeat constructor; simpl; lia.
  - exists mask. split; [exact Hm|exact Hs].
Defined.

Lemma init_normalisation_witness :
  SequenceCrossEntropyLoss_init None true (-100) true true
  = Raise AssertionError ∧
  ∃ self,
    SequenceCrossEntropyLoss_init None true (-100) false true = Ok self.
Proof.
  split.
  - apply (init_normalisation None true (-100) true true). by split.
  - destruct (init_normalisation None true (-100) false true) as [_ H].
    destruct H as (self & Hs & _); [by intros [? ?]|].
    exists self. exact Hs.
Defined.

Lemma short_target_misaligns_witness :
  forward default_loss [[[0; 0]; [0; 0]]; [[1; 2]; [3; 4]]]%R [[0]; [1]] [2; 2]
  = Ok (forward_reduce default_loss
          [cross_entropy [0; 0]%R 0; cross_entropy [0; 0]%R 1] [1; 1]%R 2).
Proof.
  apply (short_target_misaligns default_loss [0; 0]%R [0; 0]%R [1; 2]%R
           [3; 4]%R 0 1); unfold in_range; simpl; lia.
Defined.

(** ** [get_data] with a sample cap, and outside training mode *)
Section Cap.
Context {rng : Type}.
Variable seed_state : Z → rng.
Variable np_random_shuffle : list Z → rng → list Z * rng.
Hypothesis np_random_shuffle_perm :
  ∀ l g, (np_random_shuffle l g).1 ≡ₚ l.

Lemma np_random_choice_ok (a : list Z) (size : Z) (g : rng) :
  NoDup a → 0 <= size <= Z.of_nat (length a) →
  ∃ r, np_random_choice np_random_shuffle a size g = Ok r ∧
       length r = Z.to_nat size ∧ NoDup r ∧ ∀ x, x ∈ r → x ∈ a.
Proof.
  intros Ha Hsize. unfold np_random_choice.
  destruct (Z.of_nat (length a) <? size) eqn:E; [apply Z.ltb_lt in E; lia|].
  pose proof (np_random_shuffle_perm (arange 0 (Z.of_nat (length a))) g) as Hp.
  destruct (np_random_shuffle (arange 0 (Z.of_nat (length a))) g) as [idx g'].
  simpl in Hp. eexists. split; [done|].
  rewrite slice_to_nonneg by lia.
  assert (∀ i, i ∈ take (Z.to_nat size) idx → 0 <= i < Z.of_nat (length a))
    as Hidx.
  { intros i Hi%subseteq_take. rewrite Hp in Hi.
    apply elem_of_arange in Hi. lia. }
  split; [|split].
  - rewrite length_fmap, length_take, Hp, length_arange. lia.
  - apply NoDup_fmap_2_strong.
    + intros i j Hi%Hidx Hj%Hidx Heq.
      destruct (lookup_lt_is_Some_2 a (Z.to_nat i)) as [x Hx]; [lia|].
      destruct (lookup_lt_is_Some_2 a (Z.to_nat j)) as [y Hy]; [lia|].
      rewrite (list_lookup_total_correct _ _ _ Hx) in Heq.
      rewrite (list_lookup_total_correct _ _ _ Hy) in Heq. subst y.
      pose proof (NoDup_lookup a _ _ x Ha Hx Hy). lia.
    + eapply sublist_NoDup; [|apply sublist_take].
      rewrite Hp. apply NoDup_arange.
  - intros x (i & -> & Hi%Hidx)%list_elem_of_fmap.
    apply list_elem_of_lookup_total_2. lia.
Qed.

Lemma np_random_choice_too_many (a : list Z) (size : Z) (g : rng) :
  Z.of_nat (length a) < size →
  np_random_choice np_random_shuffle a size g = Raise ValueError.
Proof.
  intros H. unfold np_random_choice.
  by destruct (Z.ltb_spec (Z.of_nat (length a)) size); [|lia].
Qed.

#[local] Abbreviation run := (get_data seed_state np_random_shuffle).
#[local] Abbreviation train_of := (train_inds_of seed_state np_random_shuffle).
#[local] Abbreviation val_of := (val_inds_of seed_state np_random_shuffle).

Lemma NoDup_train_of (seed : Z) : NoDup (train_of seed).
Proof.
  pose proof (NoDup_arange 0 103000) as Hnd.
  rewrite <- (train_val_perm seed_state np_random_shuffle
                np_random_shuffle_perm seed) in Hnd.
  by apply NoDup_app in Hnd as (? & _ & _).
Qed.

Lemma get_data_split_train_cap (len : Z) (args : Args)
    (tds vds : Dataset) (seed : Z) :
  train args = true → 0 < num_samples args <= 93100 →
  ∃ tr,
    get_data_split np_random_shuffle len args tds vds (seed_state seed)
    = Ok (Subset tds tr, Some (Subset vds (val_of seed))) ∧
    length tr = Z.to_nat (num_samples args) ∧ NoDup tr ∧
    ∀ i, i ∈ tr → i ∈ train_of seed.
Proof.
  intros Ht Hn. unfold get_data_split. rewrite Ht.
  pose proof (NoDup_train_of seed) as Hnd.
  pose proof (length_train_of seed_state np_random_shuffle
                np_random_shuffle_perm seed) as Hlen.
  unfold train_inds_of, val_inds_of, shuffled_wild, shuffled_form in *.
  destruct (np_random_shuffle (arange 0 51000) (seed_state seed)) as [f g1].
  cbn [fst snd] in *.
  destruct (np_random_shuffle (arange 51000 99000) g1) as [w g2].
  cbn [fst snd] in *.
  destruct (0 <? num_samples args) eqn:E; [|apply Z.ltb_ge in E; lia].
  rewrite !slice_to_nonneg, !slice_from_nonneg by lia.
  destruct (np_random_choice_ok
              (drop (Z.to_nat 5100) f ++ drop (Z.to_nat 4800) w
                 ++ arange 99000 103000) (num_samples args) g2)
    as (tr & -> & Hl & Hd & Hsub); [done|rewrite Hlen; lia|].
  exists tr. done.
Qed.

Lemma get_data_split_cap_too_large (len : Z) (args : Args)
    (tds vds : Dataset) (seed : Z) :
  (if train args then 93100 else Z.max 0 len) < num_samples args →
  get_data_split np_random_shuffle len args tds vds (seed_state seed)
  = Raise ValueError.
Proof.
  intros Hn. unfold get_data_split.
  pose proof (length_train_of seed_state np_random_shuffle
                np_random_shuffle_perm seed) as Hlen.
  unfold train_inds_of, shuffled_wild, shuffled_form in *.
  destruct (train args).
  - destruct (np_random_shuffle (arange 0 51000) (seed_state seed)) as [f g1].
    cbn [fst snd] in *.
    destruct (np_random_shuffle (arange 51000 99000) g1) as [w g2].
    cbn [fst snd] in *.
    destruct (0 <? num_samples args) eqn:E; [|apply Z.ltb_ge in E; lia].
    rewrite !slice_from_nonneg by lia.
    by rewrite np_random_choice_too_many by (rewrite Hlen; lia).
  - destruct (0 <? num_samples args) eqn:E; [|apply Z.ltb_ge in E; lia].
    by rewrite np_random_choice_too_many by (rewrite length_arange; lia).
Qed.

(** X9.  In training mode with a sample cap [0 < num_samples <= 93100],
    [get_data] trains on exactly [num_samples] distinct indices, all drawn
    from the training indices of the run without cap, hence none of them a
    validation index; the validation indices are those of the run without
    cap. *)
Theorem capped_training_indices (len batch_size seed : Z) (args : Args) :
  0 <= seed < 2 ^ 32 → 0 < batch_size → train args = true →
  0 < num_samples args <= 93100 →
  ∃ r train_inds,
    run len batch_size seed args = Ok r ∧
    train_indices r = Some train_inds ∧
    val_indices r = Some (val_of seed) ∧
    length train_inds = Z.to_nat (num_samples args) ∧
    NoDup train_inds ∧
    (∀ i, i ∈ train_inds → i ∈ train_of seed) ∧
    (∀ i, i ∈ train_inds → i ∉ val_of seed).
Proof.
  intros Hs Hb Ht Hn.
  destruct (get_data_split_train_cap len args
              (mkDataset (get_data_dataset args).1 TRAIN_DIR true "train"
                 (get_data_transforms seed args).1)
              (mkDataset (get_data_dataset args).1 TRAIN_DIR true "train"
                 (get_data_transforms seed args).2) seed Ht Hn)
    as (tr & Hsplit & Hl & Hd & Hsub).
  rewrite (get_data_ok seed_state np_random_shuffle len batch_size seed args
             _ _ Hs Hb Hsplit)
    by (cbn [data_set_len]; lia).
  eexists _, tr. split; [reflexivity|].
  unfold train_indices, val_indices. rewrite Ht.
  split; [done|]. split; [done|]. split; [done|].
  split; [done|]. split; [done|].
  intros i Hi%Hsub.
  by apply (train_val_disjoint seed_state np_random_shuffle
              np_random_shuffle_perm seed i).
Qed.

(** X10.  A sample cap above the pool it is drawn from, 93100 indices in training
    mode and [len(train_dataset)] otherwise, makes [get_data] raise
    [ValueError] ([np.random.choice] without replacement). *)
Theorem cap_above_pool_raises (len batch_size seed : Z) (args : Args) :
  0 <= seed < 2 ^ 32 →
  (if train args then 93100 else Z.max 0 len) < num_samples args →
  run len batch_size seed args = Raise ValueError.
Proof.
  intros Hs Hn. unfold get_data.
  rewrite (np_random_seed_ok seed_state) by done. cbn [mbind result_bind].
  destruct (get_data_transforms seed args) as [ttr tte].
  destruct (get_data_dataset args) as [ds co].
  by rewrite get_data_split_cap_too_large.
Qed.

(** X11.  Outside training mode there is no validation loader; without a sample
    cap the training loader runs over the whole training dataset, and with
    a cap [0 < num_samples <= len(train_dataset)] over [num_samples]
    distinct indices of [range(len(train_dataset))]. *)
Theorem use_all_data_mode (len batch_size seed : Z) (args : Args) :
  0 <= seed < 2 ^ 32 → 0 < batch_size → 0 < len → train args = false →
  (num_samples args <= 0 →
   ∃ r, run len batch_size seed args = Ok r ∧
        val_loader r = None ∧
        dl_set (train_loader r) = Whole (train_dataset r)) ∧
  (0 < num_samples args <= len →
   ∃ r train_inds,
     run len batch_size seed args = Ok r ∧
     val_loader r = None ∧
     dl_set (train_loader r) = Subset (train_dataset r) train_inds ∧
     length train_inds = Z.to_nat (num_samples args) ∧
     NoDup train_inds ∧
     ∀ i, i ∈ train_inds → 0 <= i < len).
Proof.
  intros Hs Hb Hlen Ht. split; intros Hn.
  - erewrite (get_data_ok seed_state np_random_shuffle len);
      [|done|done
       |unfold get_data_split; rewrite Ht;
        rewrite (proj2 (Z.ltb_ge _ _)) by lia; reflexivity
       |done].
    rewrite Ht. by eexists.
  - destruct (np_random_choice_ok (arange 0 len) (num_samples args)
                (seed_state seed))
      as (tr & Hch & Hl & Hd & Hsub);
      [apply NoDup_arange|rewrite length_arange; lia|].
    erewrite (get_data_ok seed_state np_random_shuffle len);
      [|done|done
       |unfold get_data_split; rewrite Ht;
        rewrite (proj2 (Z.ltb_lt _ _)) by lia;
        rewrite Hch; reflexivity
       |cbn [data_set_len]; lia].
    rewrite Ht. eexists _, tr.
    split; [done|]. split; [done|]. split; [done|]. split; [done|].
    split; [done|]. intros i Hi%Hsub. by apply elem_of_arange in Hi.
Qed.

End Cap.


(** ** The transforms of the three datasets *)
Ltac not_a_stage :=
  let Hin := fresh "Hin" in
  intros Hin;
  repeat (apply elem_of_cons in Hin as [Hin|Hin]; [discriminate Hin|]);
  by apply elem_of_nil in Hin.

Lemma get_data_transforms_suffix (seed : Z) (args : Args) :
  ∃ stages,
    (get_data_transforms seed args).1
      = stages ++ (get_data_transforms seed args).2 ∧
    stages `prefix_of` augmentations seed args ∧
    (5 ≤ length stages)%nat ∧
    Forall (λ t, t ∉ take 5 (augmentations seed args))
           (get_data_transforms seed args).2.
Proof.
  destruct args as [g r h w m t n].
  unfold get_data_transforms, augmentations, tensor_normalize.
  cbn [grayscale resize height width].
  destruct (r =? 1), g; cbn [fst snd].
  - exists [GaussianBlur 3; DefocusBlur seed (Qmake 1 10);
            ColorJitter (Qmake 1 10); JpegCompression seed (Qmake 1 10);
            RandomRotation 15].
    split; [reflexivity|]. split; [by exists [Grayscale 3]|].
    split; [simpl; lia|]. repeat (constructor; [simpl; not_a_stage|]). constructor.
  - eexists. split; [reflexivity|]. split; [done|].
    split; [simpl; lia|]. repeat (constructor; [simpl; not_a_stage|]). constructor.
  - exists [GaussianBlur 3; DefocusBlur seed (Qmake 1 10);
            ColorJitter (Qmake 1 10); JpegCompression seed (Qmake 1 10);
            RandomRotation 15].
    split; [reflexivity|]. split; [by exists [Grayscale 3]|].
    split; [simpl; lia|]. repeat (constructor; [simpl; not_a_stage|]). constructor.
  - eexists. split; [reflexivity|]. split; [done|].
    split; [simpl; lia|]. repeat (constructor; [simpl; not_a_stage|]). constructor.
Qed.

(** X12.  Whenever [get_data] returns, the validation dataset reads the directory
    of the training dataset with the same dataset class, but with the
    transform of the test dataset; the training transform is the test
    transform preceded by augmentation stages, the first five at least,
    and none of these five is a stage of the test transform. *)
Theorem validation_uses_test_pipeline {rng : Type} (seed_state : Z → rng)
    (np_random_shuffle : list Z → rng → list Z * rng)
    (len batch_size seed : Z) (args : Args) (r : Loaders) :
  get_data seed_state np_random_shuffle len batch_size seed args = Ok r →
  ds_transform (val_dataset r) = ds_transform (test_dataset r) ∧
  ds_root (val_dataset r) = ds_root (train_dataset r) ∧
  ds_class (val_dataset r) = ds_class (train_dataset r) ∧
  ∃ stages,
    ds_transform (train_dataset r) = stages ++ ds_transform (test_dataset r) ∧
    stages `prefix_of` augmentations seed args ∧
    (5 ≤ length stages)%nat ∧
    Forall (λ t, t ∉ take 5 (augmentations seed args))
           (ds_transform (test_dataset r)).
Proof.
  unfold get_data. destruct (np_random_seed seed_state seed) as [g|e]; [|done].
  cbn [mbind result_bind].
  pose proof (get_data_transforms_suffix seed args) as Hsuf.
  destruct (get_data_transforms seed args) as [ttr tte].
  destruct (get_data_dataset args) as [ds co].
  destruct (get_data_split _ _ _ _ _ _) as [[ts vs]|e]; [|done].
  cbn [mbind result_bind].
  destruct (RandomSampler_init _) as [[]|e]; [|done]. cbn [mbind result_bind].
  destruct (DataLoader_init ts _ _ _ _ _ _) as [tl|e]; [|done].
  cbn [mbind result_bind].
  destruct (if train args then _ else _) as [vl|e]; [|done].
  cbn [mbind result_bind].
  destruct (DataLoader_init (Whole _) _ _ _ _ _ _) as [tel|e]; [|done].
  cbn [mbind result_bind].
  intros [= <-]. cbn [val_dataset test_dataset train_dataset] in *. done.
Qed.

(** *** The size of a transformed image *)
(** X13.  For an image and a target size with dimensions between 1 and
    2^31 - 1, the test transform built by [get_data] yields an image of
    exactly [args.width] by [args.height], with or without forced
    grayscale, unless the fixed-height resize asks for a width that does
    not fit a C [int], in which case it raises [OverflowError].  The
    training transform does the same on an image at least 2 by 2, provided
    [DefocusBlur] and [JpegCompression] return the image they get; on an
    image 1 wide or 1 high its first stage, [GaussianBlur], raises
    [RuntimeError]. *)
Theorem pipelines_exact_size
    (augment_call : transform → Image → result Image)
    (seed : Z) (args : Args) (img : Image) :
  0 < im_width img < 2 ^ 31 → 0 < im_height img < 2 ^ 31 →
  0 < height args < 2 ^ 31 → 0 < width args < 2 ^ 31 →
  ∃ new_w,
    FixedHeightResize_new_w (height args) img = Ok new_w ∧ 1 <= new_w ∧
    let out :=
      if (resize args =? 1) || (new_w <? 2 ^ 31)
      then Ok (mkImage (width args) (height args))
      else Raise OverflowError in
    Compose_call augment_call (get_data_transforms seed args).2 img = out ∧
    ((∀ t i, augment_call t i = Ok i) →
     1 < im_width img → 1 < im_height img →
     Compose_call augment_call (get_data_transforms seed args).1 img = out) ∧
    (im_width img = 1 ∨ im_height img = 1 →
     Compose_call augment_call (get_data_transforms seed args).1 img
     = Raise RuntimeError).
Proof.
  intros Hw Hh HH HW.
  destruct (FixedHeightResize_call_ok (height args) img Hw Hh HH)
    as (new_w & Hnew & Hpos & Hfh).
  exists new_w. split; [done|]. split; [done|].
  pose proof (F_resize_ok img (height args) (width args)
                ltac:(lia) ltac:(lia)) as Hrs.
  unfold get_data_transforms, augmentations, tensor_normalize.
  split; [|split].
  - destruct (resize args =? 1), (grayscale args); cbn [fst snd app orb];
      repeat (cbn [Compose_call transform_call];
              rewrite ?Hrs, ?Hfh; cbn [mbind result_bind]);
      try reflexivity;
      (destruct (new_w <? 2 ^ 31) eqn:E; cbn [mbind result_bind];
       [|reflexivity]; apply Z.ltb_lt in E;
       cbn [Compose_call transform_call];
       rewrite FixedWidthPad_call_ok by (cbn [im_height]; lia);
       reflexivity).
  - intros Haug Hw1 Hh1.
    assert ((if (im_width img <=? 3 / 2) || (im_height img <=? 3 / 2)
             then Raise RuntimeError else Ok img) = Ok img) as Hblur.
    { change (3 / 2) with 1.
      by rewrite (proj2 (Z.leb_gt _ _) Hw1), (proj2 (Z.leb_gt _ _) Hh1). }
    destruct (resize args =? 1), (grayscale args); cbn [fst snd app orb];
      repeat (cbn [Compose_call transform_call];
              rewrite ?Hblur, ?Haug, ?Hrs, ?Hfh; cbn [mbind result_bind]);
      try reflexivity;
      (destruct (new_w <? 2 ^ 31) eqn:E; cbn [mbind result_bind];
       [|reflexivity]; apply Z.ltb_lt in E;
       cbn [Compose_call transform_call];
       rewrite FixedWidthPad_call_ok by (cbn [im_height]; lia);
       reflexivity).
  - intros Hone.
    assert ((if (im_width img <=? 3 / 2) || (im_height img <=? 3 / 2)
             then Raise RuntimeError else Ok img) = Raise RuntimeError)
      as Hblur.
    { change (3 / 2) with 1.
      destruct Hone as [-> | ->]; [done|]. by rewrite orb_true_r. }
    destruct (resize args =? 1); cbn [fst snd app];
      cbn [Compose_call transform_call]; by rewrite Hblur.
Qed.

(** *** Images without pixels *)
Lemma of_int_small (z : Z) :
  0 <= z < 2 ^ 53 →
  Float64.of_int z = Ok (Float64.round_int z) ∧
  (z = 0 ∧ Float64.round_int z = S754_zero false ∨
   0 < z ∧ Float64.normal (-52) 2 (Float64.round_int z)).
Proof.
  intros Hz. destruct (decide (z = 0)) as [->|Hnz].
  - split; [done|]. by left.
  - destruct (Float64Facts.of_int_normal z) as [E N]; [lia|].
    split; [done|]. right. split; [lia|done].
Qed.

(** X14.  On an image of width 0 or of height 0, [FixedHeightResize] raises
    [ZeroDivisionError]: the first from [float(h) / float(w)], the second
    from the division by the aspect ratio 0.0. *)
Theorem FixedHeightResize_degenerate_image (H : Z) (img : Image) :
  0 <= im_width img < 2 ^ 53 → 0 <= im_height img < 2 ^ 53 →
  0 <= H < 2 ^ 53 →
  im_width img = 0 ∨ im_height img = 0 →
  FixedHeightResize_call H img = Raise ZeroDivisionError.
Proof.
  intros Hw Hh HH Hz. destruct img as [w h]; simpl in *.
  unfold FixedHeightResize_call, FixedHeightResize_new_w, size. simpl.
  destruct (of_int_small h Hh) as [Eh Ch].
  destruct (of_int_small w Hw) as [Ew Cw].
  destruct (of_int_small H HH) as [EH CH].
  rewrite Eh. simpl. rewrite Ew. simpl.
  destruct Cw as [[-> _]|[Hwpos Nw]]; [done|].
  destruct Ch as [[-> _]|[Hhpos _]]; [|lia].
  rewrite (Float64Facts.truediv_normal _ _ _ _ Nw).
  cbn [mbind result_bind]. rewrite EH. cbn [mbind result_bind].
  by destruct Nw as (m & e & -> & _).
Qed.

(** *** Padding twice *)
(** X15.  Whenever [FixedWidthPad(W)] returns, its result is [W] wide and as high
    as the image it got, and padding the result once more returns it
    unchanged. *)
Theorem FixedWidthPad_idempotent (W : Z) (img img' : Image) :
  FixedWidthPad_call W img = Ok img' →
  img' = mkImage W (im_height img) ∧ FixedWidthPad_call W img' = Ok img'.
Proof.
  intros Hcall.
  assert (0 <= W < 2 ^ 31 ∧ 0 <= im_height img < 2 ^ 31) as [HW Hh].
  { unfold FixedWidthPad_call in Hcall. rewrite FixedWidthPad_pads_eq in Hcall.
    unfold F_pad, size in Hcall. cbn [im_width im_height] in Hcall.
    replace ((W - im_width img) / 2 + im_width img
             + (W - im_width img - (W - im_width img) / 2)) with W in Hcall
      by lia.
    destruct (W <? 0) eqn:E1; [done|].
    destruct (0 + im_height img + 0 <? 0) eqn:E2; [done|].
    destruct (C_int W) eqn:E3; [|done].
    destruct (C_int (0 + im_height img + 0)) eqn:E4; [|done].
    apply Z.ltb_ge in E1, E2. apply C_int_spec in E3, E4. lia. }
  rewrite FixedWidthPad_call_ok in Hcall by done. injection Hcall as <-.
  split; [done|]. by rewrite FixedWidthPad_call_ok.
Qed.

(** *** Instances *)
Lemma capped_training_indices_witness :
  ∃ r train_inds,
    get_data counting_state reversing_shuffle 103000 64 42
      (mkArgs false 0 32 128 "crnn" true 1000) = Ok r ∧
    train_indices r = Some train_inds ∧
    length train_inds = Z.to_nat 1000 ∧
    NoDup train_inds.
Proof.
  destruct (capped_training_indices counting_state reversing_shuffle
              reversing_shuffle_perm 103000 64 42
              (mkArgs false 0 32 128 "crnn" true 1000))
    as (r & t & Hr & Ht & _ & Hl & Hd & _).
  - lia.
  - lia.
  - reflexivity.
  - simpl. lia.
  - exists r, t. split; [exact Hr|]. split; [exact Ht|].
    split; [exact Hl|exact Hd].
Defined.

Lemma cap_above_pool_raises_witness :
  get_data counting_state reversing_shuffle 103000 64 42
    (mkArgs false 0 32 128 "crnn" true 93101) = Raise ValueError.
Proof.
  apply (cap_above_pool_raises counting_state reversing_shuffle
           reversing_shuffle_perm 103000 64 42
           (mkArgs false 0 32 128 "crnn" true 93101)).
  - lia.
  - simpl. lia.
Defined.

Lemma use_all_data_mode_witness :
  (∃ r, get_data counting_state reversing_shuffle 103000 64 42
          (mkArgs false 0 32 128 "crnn" false 0) = Ok r ∧
        val_loader r = None) ∧
  (∃ r train_inds,
     get_data counting_state reversing_shuffle 103000 64 42
       (mkArgs false 0 32 128 "crnn" false 1000) = Ok r ∧
     dl_set (train_loader r) = Subset (train_dataset r) train_inds ∧
     length train_inds = Z.to_nat 1000).
Proof.
  split.
  - destruct (use_all_data_mode counting_state reversing_shuffle
                reversing_shuffle_perm 103000 64 42
                (mkArgs false 0 32 128 "crnn" false 0)) as [H _];
      [lia|lia|lia|reflexivity|].
    destruct H as (r & Hr & Hv & _); [simpl; lia|].
    exists r. split; [exact Hr|exact Hv].
  - destruct (use_all_data_mode counting_state reversing_shuffle
                reversing_shuffle_perm 103000 64 42
                (mkArgs false 0 32 128 "crnn" false 1000)) as [_ H];
      [lia|lia|lia|reflexivity|].
    destruct H as (r & t & Hr & _ & Hs & Hl & _); [simpl; lia|].
    exists r, t. split; [exact Hr|]. split; [exact Hs|exact Hl].
Defined.

Lemma validation_uses_test_pipeline_witness :
  ∃ r,
    get_data counting_state reversing_shuffle 10 64 42
      (mkArgs true 0 32 128 "crnn" false 0) = Ok r ∧
    ds_transform (val_dataset r) = ds_transform (test_dataset r).
Proof.
  eexists. split; [reflexivity|].
  apply (validation_uses_test_pipeline counting_state reversing_shuffle
           10 64 42 (mkArgs true 0 32 128 "crnn" false 0)).
  reflexivity.
Defined.

Lemma pipelines_exact_size_witness :
  Compose_call (λ _ img, Ok img) (get_data_transforms 42 args_train).2
    (mkImage 100 50) = Ok (mkImage 128 32) ∧
  Compose_call (λ _ img, Ok img) (get_data_transforms 42 args_train).1
    (mkImage 100 50) = Ok (mkImage 128 32).
Proof.
  destruct (pipelines_exact_size (λ _ img, Ok img) 42 args_train
              (mkImage 100 50))
    as (new_w & Hnew & _ & Htest & Htrain & _);
    [simpl; lia|simpl; lia|simpl; lia|simpl; lia|].
  vm_compute in Hnew. injection Hnew as <-.
  split; [exact Htest|].
  apply Htrain; [reflexivity|simpl; lia|simpl; lia].
Defined.

Lemma FixedHeightResize_degenerate_image_witness :
  FixedHeightResize_call 32 (mkImage 0 50) = Raise ZeroDivisionError.
Proof.
  apply (FixedHeightResize_degenerate_image 32 (mkImage 0 50));
    [simpl; lia|simpl; lia|lia|].
  left. reflexivity.
Defined.

Lemma FixedWidthPad_idempotent_witness :
  FixedWidthPad_call 128 (mkImage 128 32) = Ok (mkImage 128 32).
Proof.
  apply (FixedWidthPad_idempotent 128 (mkImage 16 32) (mkImage 128 32)).
  reflexivity.
Defined.

(** ** [models/crnn.py]: sizes through the model *)

Section CRNNFacts.
Import CRNN.

Lemma size_prods_1 (n h w : Z) :
  n * h * w = 1 → (h = 1 ∨ h = -1) ∧ (w = 1 ∨ w = -1).
Proof.
  intros E. split.
  - apply Z.eq_mul_1 in E as [E|E]; [|].
    + rewrite Z.mul_comm in E. by apply Z.eq_mul_1 in E.
    + assert (h * (- n) = 1) as E' by lia. by apply Z.eq_mul_1 in E'.
  - rewrite Z.mul_comm in E. by apply Z.eq_mul_1 in E.
Qed.

Ltac size_hyps :=
  repeat match goal with
  | H : (_ <? _) = true |- _ => apply Z.ltb_lt in H
  | H : (_ <? _) = false |- _ => apply Z.ltb_ge in H
  | H : (_ <=? _) = true |- _ => apply Z.leb_le in H
  | H : (_ <=? _) = false |- _ => apply Z.leb_gt in H
  | H : (_ =? _) = true |- _ => apply Z.eqb_eq in H
  | H : (_ =? _) = false |- _ => apply Z.eqb_neq in H
  | H : (_ && _) = true |- _ => apply andb_true_iff in H as [? ?]
  | H : (_ && _) = false |- _ => clear H
  | H : _ * _ * _ = 1 |- _ => apply size_prods_1 in H as [? ?]
  | H : _ * _ * _ ≠ 1 |- _ => clear H
  end.

Ltac size_steps :=
  repeat (cbv beta iota zeta delta [Datatypes.id];
          match goal with
          | |- Raise _ = Raise _ => reflexivity
          | |- ∃ e, Raise _ = Raise e => eexists; reflexivity
          | |- Raise _ = Ok _ => exfalso; Z.div_mod_to_equations; lia
          | |- ∃ e, Ok _ = Raise e => exfalso; Z.div_mod_to_equations; lia
          | |- context [if ?b then _ else _] =>
              let E := fresh "E" in destruct b eqn:E; size_hyps
          end).

Lemma vgg_backbone_ok (img_channel img_height img_width : Z)
    (leaky_relu : bool) :
  img_height `mod` 16 = 0 → img_width `mod` 4 = 0 →
  ∃ cnn,
    vgg_backbone img_channel img_height img_width leaky_relu
    = Ok (cnn, (512, img_height / 16 - 1, img_width / 4 - 1)) ∧
    ∀ training n c h w,
      if (c =? img_channel) && (32 <=? h) && (8 <=? w)
      then Sequential_size training cnn (n, c, h, w)
           = Ok (n, 512, h / 16 - 1, w / 4 - 1)
      else ∃ e, Sequential_size training cnn (n, c, h, w) = Raise e.
Proof.
  intros HH HW. unfold vgg_backbone. rewrite HH, HW. simpl py_assert.
  cbn [mbind result_bind].
  remember (img_height / 16 - 1) as oh eqn:Hoh.
  remember (img_width / 4 - 1) as ow eqn:How.
  clear HH HW Hoh How.
  destruct leaky_relu; eexists; (split; [vm_compute; reflexivity|]);
    intros training n c h w;
    cbv [Sequential_size layer_size conv_out pool_out mbind result_bind
         default from_option id];
    destruct ((c =? img_channel) && (32 <=? h) && (8 <=? w)) eqn:Hc.
  - apply andb_true_iff in Hc as [Hc Hw]. apply andb_true_iff in Hc as [Hc Hh].
    size_hyps. size_steps.
    do 2 f_equal; [f_equal|]; Z.div_mod_to_equations; lia.
  - apply andb_false_iff in Hc as [Hc|Hc];
      [apply andb_false_iff in Hc as [Hc|Hc]|];
      size_hyps; size_steps.
  - apply andb_true_iff in Hc as [Hc Hw]. apply andb_true_iff in Hc as [Hc Hh].
    size_hyps. size_steps.
    do 2 f_equal; [f_equal|]; Z.div_mod_to_equations; lia.
  - apply andb_false_iff in Hc as [Hc|Hc];
      [apply andb_false_iff in Hc as [Hc|Hc]|];
      size_hyps; size_steps.
Qed.

Lemma Dropout_ok (p : Q) :
  (0 < p)%Q →
  Dropout p = if Qle_bool p 1 then Ok p else Raise ValueError.
Proof.
  intros Hp. unfold Dropout.
  by rewrite (proj2 (Qle_bool_iff 0 p) (Qlt_le_weak _ _ Hp)).
Qed.

Lemma init_vgg_ok (img_channel img_height img_width num_class : Z)
    (map_to_seq_hidden rnn_hidden : Z) (leaky_relu : bool) (dropout : Q) :
  img_height `mod` 16 = 0 → img_width `mod` 4 = 0 →
  ∃ layers,
    (∀ training n c h w,
       if (c =? img_channel) && (32 <=? h) && (8 <=? w)
       then Sequential_size training layers (n, c, h, w)
            = Ok (n, 512, h / 16 - 1, w / 4 - 1)
       else ∃ e, Sequential_size training layers (n, c, h, w) = Raise e) ∧
    init img_channel img_height img_width num_class map_to_seq_hidden
      rnn_hidden leaky_relu dropout "vgg" false
    = let self := λ dropout1,
        mk Identity "vgg" (VGG layers)
           (mkLinear (512 * (img_height / 16 - 1)) map_to_seq_hidden)
           (mkLSTM map_to_seq_hidden rnn_hidden true)
           (mkLSTM (2 * rnn_hidden) rnn_hidden true)
           (mkLinear (2 * rnn_hidden) num_class)
           dropout1 dropout in
      if Qlt_le_dec 0 dropout
      then if Qle_bool dropout 1 then Ok (self (Some dropout))
           else Raise ValueError
      else Ok (self None).
Proof.
  intros HH HW.
  destruct (vgg_backbone_ok img_channel img_height img_width leaky_relu HH HW)
    as (layers & Hb & Hsize).
  exists layers. split; [done|].
  unfold init. rewrite Hb. cbn [bool_decide decide_rel mbind result_bind].
  cbv zeta. destruct (Qlt_le_dec 0 dropout) as [Hp|Hp]; [|done].
  rewrite (Dropout_ok _ Hp). by destruct (Qle_bool dropout 1).
Qed.

Lemma forward_size_vgg
    (TPS_size : tps_module → Z * Z * Z * Z → result (Z * Z * Z * Z))
    (ResNet_size : cnn_module → Z * Z * Z * Z → result (Z * Z * Z * Z))
    (img_channel img_height img_width num_class : Z)
    (map_to_seq_hidden rnn_hidden : Z) (leaky_relu : bool) (dropout : Q)
    (self : t) :
  img_height `mod` 16 = 0 → img_width `mod` 4 = 0 →
  init img_channel img_height img_width num_class map_to_seq_hidden
    rnn_hidden leaky_relu dropout "vgg" false = Ok self →
  ∀ training batch c h w,
    if (c =? img_channel) && (32 <=? h) && (8 <=? w)
       && (h / 16 =? img_height / 16)
    then forward_size TPS_size ResNet_size training self (batch, c, h, w)
         = Ok (w / 4 - 1, batch, num_class)
    else ∃ e, forward_size TPS_size ResNet_size training self (batch, c, h, w)
              = Raise e.
Proof.
  intros HH HW Hself.
  destruct (init_vgg_ok img_channel img_height img_width num_class
              map_to_seq_hidden rnn_hidden leaky_relu dropout HH HW)
    as (layers & Hsize & Hinit).
  rewrite Hinit in Hself. cbv zeta in Hself.
  assert (∃ d, self = mk Identity "vgg" (VGG layers)
                        (mkLinear (512 * (img_height / 16 - 1)) map_to_seq_hidden)
                        (mkLSTM map_to_seq_hidden rnn_hidden true)
                        (mkLSTM (2 * rnn_hidden) rnn_hidden true)
                        (mkLinear (2 * rnn_hidden) num_class) d dropout)
    as [d ->].
  { destruct (Qlt_le_dec 0 dropout); [destruct (Qle_bool dropout 1)|];
      inversion Hself; by eexists. }
  clear Hself Hinit. intros training batch c h w.
  unfold forward_size. cbn [tps cnn map_to_seq rnn1 rnn2 dense cnn_size].
  cbn [mbind result_bind].
  specialize (Hsize training batch c h w).
  destruct ((c =? img_channel) && (32 <=? h) && (8 <=? w)).
  - rewrite Hsize. cbn [andb mbind result_bind].
    unfold Linear_size, LSTM_size.
    cbn [in_features out_features input_size hidden_size bidirectional].
    destruct (Z.eqb_spec (h / 16) (img_height / 16)) as [Heq|Hne].
    + rewrite Heq. by repeat (rewrite Z.eqb_refl; cbn [mbind result_bind]).
    + destruct (Z.eqb_spec (512 * (h / 16 - 1)) (512 * (img_height / 16 - 1)));
        [lia|by eexists].
  - destruct Hsize as [e ->]. cbn [andb mbind result_bind]. by eexists.
Qed.

(** X16.  The [vgg] stack: for a positive number of channels, a height that is a
    multiple of 16 and a width that is a multiple of 4 it is built, and it
    declares the output size (512, H // 16 - 1, W // 4 - 1).  On a
    non-empty batch of images of size (c, h, w) it succeeds exactly when
    c is the number of channels it was built for, h >= 32 and w >= 8, and
    then its output has size (512, h // 16 - 1, w // 4 - 1): the declared
    size is the size it produces on images of the declared size exactly
    when these are at least 32 high and 8 wide. *)
Theorem vgg_backbone_sizes (img_channel img_height img_width : Z)
    (leaky_relu : bool) :
  0 < img_channel → img_height `mod` 16 = 0 → img_width `mod` 4 = 0 →
  ∃ cnn,
    vgg_backbone img_channel img_height img_width leaky_relu
    = Ok (cnn, (512, img_height / 16 - 1, img_width / 4 - 1)) ∧
    ∀ training n c h w s,
      0 < n →
      Sequential_size training cnn (n, c, h, w) = Ok s
      ↔ c = img_channel ∧ 32 <= h ∧ 8 <= w ∧
        s = (n, 512, h / 16 - 1, w / 4 - 1).
Proof.
  intros _ HH HW.
  destruct (vgg_backbone_ok img_channel img_height img_width leaky_relu HH HW)
    as (cnn & Hb & Hsize).
  exists cnn. split; [done|]. intros training n c h w s _.
  specialize (Hsize training n c h w).
  destruct ((c =? img_channel) && (32 <=? h) && (8 <=? w)) eqn:Hc.
  - apply andb_true_iff in Hc as [Hc Hw]. apply andb_true_iff in Hc as [Hc Hh].
    size_hyps. rewrite Hsize. split.
    + intros [= <-]. done.
    + intros (_ & _ & _ & ->). done.
  - destruct Hsize as [e ->]. split; [done|]. intros (-> & Hh & Hw & _).
    rewrite Z.eqb_refl, (proj2 (Z.leb_le _ _) Hh), (proj2 (Z.leb_le _ _) Hw)
      in Hc.
    done.
Qed.

Lemma vgg_backbone_sizes_witness :
  ∃ cnn,
    vgg_backbone 1 32 128 false = Ok (cnn, (512, 32 / 16 - 1, 128 / 4 - 1)) ∧
    ∀ training n c h w s,
      0 < n →
      Sequential_size training cnn (n, c, h, w) = Ok s
      ↔ c = 1 ∧ 32 <= h ∧ 8 <= w ∧ s = (n, 512, h / 16 - 1, w / 4 - 1).
Proof.
  apply (vgg_backbone_sizes 1 32 128 false); [lia|reflexivity|reflexivity].
Defined.

(** X17.  [CRNN.__init__] without a spatial transformer.  A feature extractor
    other than 'vgg' and 'resnet' raises a [ValueError], whatever the sizes;
    with 'vgg', an image height that is not a multiple of 16 or a width
    that is not a multiple of 4 raises an [AssertionError]; with 'vgg' and
    sizes that pass, a dropout rate above 1 raises a [ValueError], and any
    other dropout rate gives a model whose first linear layer reads
    512 * (H // 16 - 1) features, whose two recurrent layers and last linear
    layer fit one another, and which has a dropout layer exactly for a
    positive rate (a negative rate is accepted, and means no dropout). *)
Theorem CRNN_init_outcomes (img_channel img_height img_width num_class : Z)
    (map_to_seq_hidden rnn_hidden : Z) (leaky_relu : bool) (dropout : Q)
    (feature_extractor : string) :
  0 < img_channel → 0 < img_height → 0 < num_class →
  0 < map_to_seq_hidden → 0 < rnn_hidden →
  let init :=
    init img_channel img_height img_width num_class map_to_seq_hidden
      rnn_hidden leaky_relu dropout in
  (feature_extractor ≠ "vgg"%string → feature_extractor ≠ "resnet"%string →
   init feature_extractor false = Raise ValueError) ∧
  (img_height `mod` 16 ≠ 0 ∨ img_width `mod` 4 ≠ 0 →
   init "vgg"%string false = Raise AssertionError) ∧
  (img_height `mod` 16 = 0 → img_width `mod` 4 = 0 → (1 < dropout)%Q →
   init "vgg"%string false = Raise ValueError) ∧
  (img_height `mod` 16 = 0 → img_width `mod` 4 = 0 → (dropout <= 1)%Q →
   ∃ self,
     init "vgg"%string false = Ok self ∧
     tps self = Identity ∧
     in_features (map_to_seq self) = 512 * (img_height / 16 - 1) ∧
     LSTM_size (rnn1 self) (1, 1, out_features (map_to_seq self))
     = Ok (1, 1, input_size (rnn2 self)) ∧
     LSTM_size (rnn2 self) (1, 1, input_size (rnn2 self))
     = Ok (1, 1, in_features (dense self)) ∧
     out_features (dense self) = num_class ∧
     drop_out self = dropout ∧
     (is_Some (dropout1 self) ↔ (0 < dropout)%Q)).
Proof.
  intros _ _ _ _ _ init0. subst init0. split; [|split; [|split]].
  - intros Hv Hr. unfold init.
    rewrite (bool_decide_eq_false_2 _ Hv), (bool_decide_eq_false_2 _ Hr).
    done.
  - intros H. unfold init. cbn [bool_decide decide_rel].
    assert (vgg_backbone img_channel img_height img_width leaky_relu
            = Raise AssertionError) as ->; [|done].
    unfold vgg_backbone.
    destruct (Z.eqb_spec (img_height `mod` 16) 0) as [HH|HH]; [|done].
    destruct (Z.eqb_spec (img_width `mod` 4) 0) as [HW|HW]; [|done].
    by destruct H.
  - intros HH HW Hd.
    destruct (init_vgg_ok img_channel img_height img_width num_class
                map_to_seq_hidden rnn_hidden leaky_relu dropout HH HW)
      as (layers & _ & ->). cbv zeta.
    destruct (Qlt_le_dec 0 dropout) as [Hp|Hp].
    + destruct (Qle_bool dropout 1) eqn:E; [|done].
      apply Qle_bool_iff in E. exfalso. by apply (Qlt_not_le _ _ Hd).
    + exfalso. apply (Qlt_not_le _ _ Hd). by apply (Qle_trans _ 0).
  - intros HH HW Hd.
    destruct (init_vgg_ok img_channel img_height img_width num_class
                map_to_seq_hidden rnn_hidden leaky_relu dropout HH HW)
      as (layers & _ & ->). cbv zeta.
    rewrite (proj2 (Qle_bool_iff dropout 1) Hd).
    destruct (Qlt_le_dec 0 dropout) as [Hp|Hp]; eexists;
      (split; [reflexivity|]);
      cbn [tps map_to_seq rnn1 rnn2 dense dropout1 drop_out in_features
           out_features input_size hidden_size bidirectional LSTM_size];
      rewrite !Z.eqb_refl; do 6 (split; [done|]).
    + split; [done|by eexists].
    + split; [intros [? [=]]|]. intros Hp'. exfalso.
      by apply (Qlt_not_le _ _ Hp').
Qed.

Lemma CRNN_init_outcomes_witness :
  init 1 32 128 10 64 256 false 0 "lstm" false = Raise ValueError ∧
  init 1 40 128 10 64 256 false 0 "vgg" false = Raise AssertionError ∧
  init 1 32 128 10 64 256 false (3 # 2) "vgg" false = Raise ValueError ∧
  ∃ self, init 1 32 128 10 64 256 false (1 # 2) "vgg" false = Ok self ∧
          is_Some (dropout1 self).
Proof.
  split; [|split; [|split]].
  - by apply (CRNN_init_outcomes 1 32 128 10 64 256 false 0 "lstm").
  - apply (CRNN_init_outcomes 1 40 128 10 64 256 false 0 "vgg"); try lia.
    left. by vm_compute.
  - by apply (CRNN_init_outcomes 1 32 128 10 64 256 false (3 # 2) "vgg").
  - destruct (CRNN_init_outcomes 1 32 128 10 64 256 false (1 # 2) "vgg")
      as (_ & _ & _ & H); try lia.
    destruct H as (self & Hs & _ & _ & _ & _ & _ & _ & Hd);
      [reflexivity|reflexivity|by vm_compute|].
    exists self. split; [exact Hs|]. by apply Hd.
Defined.

(** X18.  [CRNN.forward] on a 'vgg' model without spatial transformer, built for
    images of size (C, H, W): a non-empty batch of images of size
    (c, h, w) is accepted exactly when c = C, h >= 32, w >= 8 and
    h // 16 = H // 16, and the output then has size
    (w // 4 - 1, batch, num_class).  Neither the width the model was built
    for nor the exact height matter: any width from 8 on is accepted and
    gives a sequence of its own length. *)
Theorem CRNN_vgg_forward_size
    (TPS_size : tps_module → Z * Z * Z * Z → result (Z * Z * Z * Z))
    (ResNet_size : cnn_module → Z * Z * Z * Z → result (Z * Z * Z * Z))
    (img_channel img_height img_width num_class : Z)
    (map_to_seq_hidden rnn_hidden : Z) (leaky_relu : bool) (dropout : Q)
    (self : t) (training : bool) (batch c h w : Z) (out : Z * Z * Z) :
  img_height `mod` 16 = 0 → img_width `mod` 4 = 0 →
  init img_channel img_height img_width num_class map_to_seq_hidden
    rnn_hidden leaky_relu dropout "vgg" false = Ok self →
  0 < batch →
  forward_size TPS_size ResNet_size training self (batch, c, h, w) = Ok out
  ↔ c = img_channel ∧ 32 <= h ∧ 8 <= w ∧ h / 16 = img_height / 16 ∧
    out = (w / 4 - 1, batch, num_class).
Proof.
  intros HH HW Hself _.
  pose proof (forward_size_vgg TPS_size ResNet_size _ _ _ _ _ _ _ _ _
                HH HW Hself training batch c h w) as Hsize.
  destruct ((c =? img_channel) && (32 <=? h) && (8 <=? w)
            && (h / 16 =? img_height / 16)) eqn:Hc.
  - apply andb_true_iff in Hc as [Hc He]. apply andb_true_iff in Hc as [Hc Hw].
    apply andb_true_iff in Hc as [Hc Hh].
    size_hyps. rewrite Hsize. split.
    + intros [= <-]. done.
    + intros (_ & _ & _ & _ & ->). done.
  - destruct Hsize as [e ->]. split; [done|]. intros (-> & Hh & Hw & He & _).
    rewrite Z.eqb_refl, (proj2 (Z.leb_le _ _) Hh), (proj2 (Z.leb_le _ _) Hw),
      (proj2 (Z.eqb_eq _ _) He) in Hc.
    done.
Qed.

Lemma CRNN_vgg_forward_size_witness :
  ∃ self,
    init 1 32 128 10 64 256 false 0 "vgg" false = Ok self ∧
    ∀ TPS_size ResNet_size training,
      forward_size TPS_size ResNet_size training self (4, 1, 40, 200)
      = Ok (49, 4, 10).
Proof.
  destruct (init 1 32 128 10 64 256 false 0 "vgg" false) as [self|e] eqn:E;
    [|by vm_compute in E].
  exists self. split; [done|]. intros TPS_size ResNet_size training.
  apply (CRNN_vgg_forward_size TPS_size ResNet_size 1 32 128 10 64 256 false 0
           self training 4 1 40 200 (49, 4, 10));
    [reflexivity|reflexivity|exact E|lia|].
  repeat split; lia.
Defined.

(** X19.  A 'vgg' model may be built for images 16 high (the assertion of
    [vgg_backbone] passes), but its [forward] accepts no input at all:
    the last convolution needs a height of 32, and the linear layer was
    built for no feature. *)
Theorem CRNN_vgg_height_16_rejects_all
    (TPS_size : tps_module → Z * Z * Z * Z → result (Z * Z * Z * Z))
    (ResNet_size : cnn_module → Z * Z * Z * Z → result (Z * Z * Z * Z))
    (img_channel img_width num_class : Z)
    (map_to_seq_hidden rnn_hidden : Z) (leaky_relu : bool) (dropout : Q)
    (self : t) :
  img_width `mod` 4 = 0 →
  init img_channel 16 img_width num_class map_to_seq_hidden
    rnn_hidden leaky_relu dropout "vgg" false = Ok self →
  ∀ training images,
    ∃ e, forward_size TPS_size ResNet_size training self images = Raise e.
Proof.
  intros HW Hself training [[[batch c] h] w].
  pose proof (forward_size_vgg TPS_size ResNet_size img_channel 16 img_width
                num_class map_to_seq_hidden rnn_hidden leaky_relu dropout self
                eq_refl HW Hself training batch c h w) as Hsize.
  destruct (Z.leb_spec 32 h) as [Hh|Hh].
  - destruct (Z.eqb_spec (h / 16) (16 / 16)) as [He|He].
    + exfalso. change (16 / 16) with 1 in He. Z.div_mod_to_equations. lia.
    + by rewrite !andb_false_r in Hsize.
  - by rewrite andb_false_r, !andb_false_l in Hsize.
Qed.

Lemma CRNN_vgg_height_16_rejects_all_witness :
  ∃ self,
    init 1 16 128 10 64 256 false 0 "vgg" false = Ok self ∧
    ∀ TPS_size ResNet_size training images,
      ∃ e, forward_size TPS_size ResNet_size training self images = Raise e.
Proof.
  destruct (init 1 16 128 10 64 256 false 0 "vgg" false) as [self|e] eqn:E;
    [|by vm_compute in E].
  exists self. split; [done|]. intros TPS_size ResNet_size training images.
  apply (CRNN_vgg_height_16_rejects_all TPS_size ResNet_size 1 128 10 64 256
           false 0 self); [reflexivity|exact E].
Defined.

(** *** From feature maps to a sequence *)
Lemma lookup_concat_uniform {A} (ls : list (list A)) (H c h : nat) :
  Forall (λ l, length l = H) ls → (h < H)%nat →
  concat ls !! (c * H + h)%nat
  = match ls !! c with Some l => l !! h | None => None end.
Proof.
  intros Hls Hh. revert c.
  induction Hls as [|l ls Hl _ IH]; intros c; [done|].
  destruct c as [|c]; simpl.
  - by rewrite lookup_app_l by lia.
  - rewrite lookup_app_r by lia. rewrite <- IH. f_equal. lia.
Qed.

Lemma lookup_omap_column {A} (rows : list (list A)) (w k : nat) :
  Forall (λ row, (w < length row)%nat) rows →
  omap (λ row : list A, row !! w) rows !! k
  = match rows !! k with Some row => row !! w | None => None end.
Proof.
  intros Hrows. revert k.
  induction Hrows as [|row rows Hrow _ IH]; intros k; [done|]. simpl.
  destruct (lookup_lt_is_Some_2 row w Hrow) as [x Hx]. rewrite Hx.
  destruct k as [|k]; simpl; [done|]. apply IH.
Qed.

(** X20.  [CRNN.forward], lines 96-98: in the sequence given to the linear
    layer, the feature [c * H + h] of the sample [b] at the step [w] is the
    entry of the feature map of size (B, C, H, W) at channel [c], row [h]
    and column [w] of that sample: the steps of the sequence are the
    columns of the feature map, each with its channels one after another. *)
Theorem features_to_sequence {A} (B C H W : nat)
    (conv : list (list (list (list A)))) (b c h w : nat) :
  conv_shape B C H W conv →
  (b < B)%nat → (c < C)%nat → (h < H)%nat → (w < W)%nat →
  entry3 (permute_2_0_1 W (view_merge conv)) w b (c * H + h)
  = entry4 conv b c h w.
Proof.
  intros [HB Hconv] Hb Hc Hh Hw.
  unfold entry3, entry4, permute_2_0_1, view_merge.
  rewrite list_lookup_fmap, lookup_seq_lt by done. simpl.
  rewrite !list_lookup_fmap.
  destruct (lookup_lt_is_Some_2 conv b) as [sample Hs]; [lia|].
  rewrite Hs. simpl.
  pose proof (Forall_lookup_1 _ _ _ _ Hconv Hs) as [HC Hsample].
  rewrite lookup_omap_column.
  - rewrite (lookup_concat_uniform sample H c h);
      [|by eapply Forall_impl; [exact Hsample|intros ? [? _]]|done].
    unfold entry3. by destruct (sample !! c) as [map|].
  - apply Forall_concat. eapply Forall_impl; [exact Hsample|].
    intros map [_ Hrows]. eapply Forall_impl; [exact Hrows|].
    intros row Hrow. simpl in Hrow. lia.
Qed.

Lemma features_to_sequence_witness :
  entry3 (permute_2_0_1 2 (view_merge [[[[1; 2]; [3; 4]]; [[5; 6]; [7; 8]]]]))
    1 0 (1 * 2 + 0)
  = entry4 [[[[1; 2]; [3; 4]]; [[5; 6]; [7; 8]]]] 0 1 0 1.
Proof.
  apply (features_to_sequence 1 2 2 2); [|lia..].
  split; [reflexivity|]. repeat constructor.
Defined.

End CRNNFacts.
